(** * MFSES: the Supabase schema and the Polygon call limiter, embedded in Rocq

    The development follows [supabase/schema.sql] (tables, constraints,
    generated columns and the PL/pgSQL functions) and the [polyFetch] limiter
    of the whalewatch Polygon module.

    Tables are lists of rows: the list order is the order in which a
    sequential scan meets the rows, which SQL leaves unspecified and which
    the result of an [ORDER BY] with ties depends on.  Every statement is a
    function from the database to a [result]: either the new database or
    the SQL error that aborted the statement.  [now()] is an argument of
    every statement; it is the timestamp of the enclosing transaction. *)

From Stdlib Require Import ZArith List String Bool Lia Permutation Sorted.
From Stdlib Require Import QArith Lqa.
Import ListNotations.

Local Open Scope string_scope.
Local Open Scope list_scope.
Local Open Scope Z_scope.

(** ** SQL values *)

(** [TIMESTAMPTZ]: microseconds since the epoch. *)
Definition timestamptz := Z.

Definition minutes (n : Z) : Z := n * 60000000.
Definition hours (n : Z) : Z := n * 3600000000.
Definition days (n : Z) : Z := n * 86400000000.

(** [SMALLINT] is a 16-bit signed integer; an assignment outside the range
    raises "smallint out of range". *)
Definition smallint_ok (z : Z) : bool := (-32768 <=? z) && (z <=? 32767).

(** [NUMERIC(p,2)] values are kept in hundredths; [numeric_ok p] is the
    precision test of the column ("numeric field overflow" otherwise). *)
Definition numeric_ok (precision : Z) (hundredths : Z) : bool :=
  Z.abs hundredths <? 10 ^ precision.

(** The rational a [NUMERIC(p,2)] value stands for. *)
Definition hundredths (h : Z) : Q := h # 100.

(** [x BETWEEN lo AND hi] *)
Definition between (x lo hi : Z) : bool := (lo <=? x) && (x <=? hi).

(** [s IN (l)] on text *)
Definition text_in (s : string) (l : list string) : bool :=
  existsb (String.eqb s) l.

Inductive sql_error : Type :=
| not_null_violation (column : string)
| check_violation (constraint : string)
| unique_violation (constraint : string)
| foreign_key_violation (constraint : string)
| numeric_value_out_of_range (column : string).

Inductive result (A : Type) : Type :=
| Ok (a : A)
| Err (e : sql_error).
Arguments Ok {A} a.
Arguments Err {A} e.

Definition bind {A B : Type} (m : result A) (k : A -> result B) : result B :=
  match m with
  | Ok a => k a
  | Err e => Err e
  end.

Definition ensure (b : bool) (e : sql_error) : result unit :=
  if b then Ok tt else Err e.

Notation "'do' x <- m ; k" := (bind m (fun x => k))
  (at level 10, x name, m at level 100, k at level 200).
Notation "m ;; k" := (bind m (fun _ => k))
  (at level 100, k at level 200, right associativity).

(** [UPDATE t SET ... WHERE wh]: every row that satisfies [wh] is replaced
    by [set] of the old row; the others are kept. *)
Definition update_where {A : Type} (wh : A -> bool) (set : A -> A)
  (rows : list A) : list A :=
  map (fun r => if wh r then set r else r) rows.

(** [DELETE FROM t WHERE wh] *)
Definition delete_where {A : Type} (wh : A -> bool) (rows : list A) : list A :=
  filter (fun r => negb (wh r)) rows.

(** A column (or key) holds no value twice. *)
Fixpoint distinct {K : Type} (eqb : K -> K -> bool) (keys : list K) : bool :=
  match keys with
  | [] => true
  | k :: rest => negb (existsb (eqb k) rest) && distinct eqb rest
  end.

(** ** Table rows *)

(** TABLE 1: tickers *)
Record ticker : Type := mk_ticker {
  t_ticker : string;
  company_name : string;
  sector : string;
  industry : option string;
  tier : Z;
  market_cap : option Z;
  is_active : bool;
  added_at : timestamptz
}.

(** TABLE 2: stock_states *)
Record stock_state : Type := mk_stock_state {
  ss_ticker : string;
  current_state : string;
  previous_state : option string;
  last_updated : timestamptz;
  next_update_due : timestamptz;
  promotion_reason : option string;
  promotion_expires : option timestamptz;
  consecutive_hot : Z
}.

(** TABLE 4: stock_scores.  [score_cols] are the columns a statement may
    assign; the four [GENERATED ALWAYS ... STORED] columns are computed by
    the database and kept in [stock_score] next to them.  The three
    composites are [NUMERIC(5,2)], in hundredths. *)
Record score_cols : Type := mk_score_cols {
  sc_ticker : string;
  moat_score : Z;
  growth_score : Z;
  balance_score : Z;
  valuation_score : Z;
  sentiment_score : Z;
  dividend_score : Z;
  mfses_short : Z;
  mfses_mid : Z;
  mfses_long : Z;
  graham_value : option Z;
  graham_upside_pct : option Z;
  scored_at : timestamptz
}.

Record stock_score : Type := mk_stock_score {
  cols : score_cols;
  total_score : Z;
  is_triple_crown : bool;
  is_value_trap : bool;
  is_expensive_growth : bool
}.

(** TABLE 5: pipeline_runs.  [duration_seconds] is [NUMERIC(8,2)], in
    hundredths of a second; the counters are nullable [INTEGER]s. *)
Record pipeline_run : Type := mk_pipeline_run {
  id : Z;
  run_type : string;
  started_at : timestamptz;
  finished_at : option timestamptz;
  duration_seconds : option Z;
  markov_tickers_due : option Z;
  collected_count : option Z;
  scored_count : option Z;
  states_promoted : option Z;
  states_demoted : option Z;
  api_calls_made : option Z;
  api_errors : option Z;
  status : string;
  error_message : option string;
  error_step : option string;
  retry_count : option Z
}.

(** The database: the four tables the pipeline functions touch. *)
Record db : Type := mk_db {
  tickers : list ticker;
  stock_states : list stock_state;
  stock_scores : list stock_score;
  pipeline_runs : list pipeline_run
}.

Definition empty_db : db := mk_db [] [] [] [].

Definition with_tickers (d : db) (l : list ticker) : db :=
  mk_db l (stock_states d) (stock_scores d) (pipeline_runs d).
Definition with_states (d : db) (l : list stock_state) : db :=
  mk_db (tickers d) l (stock_scores d) (pipeline_runs d).
Definition with_scores (d : db) (l : list stock_score) : db :=
  mk_db (tickers d) (stock_states d) l (pipeline_runs d).
Definition with_runs (d : db) (l : list pipeline_run) : db :=
  mk_db (tickers d) (stock_states d) (stock_scores d) l.

(** ** Constraints *)

(** [CONSTRAINT valid_tier CHECK (tier BETWEEN 1 AND 4)] *)
Definition valid_tier (t : ticker) : bool := between (tier t) 1 4.

(** [CONSTRAINT valid_state CHECK (current_state IN ('HOT', 'WARM', 'COLD', 'FROZEN'))] *)
Definition valid_state (s : string) : bool :=
  text_in s ["HOT"; "WARM"; "COLD"; "FROZEN"].

(** [CONSTRAINT valid_status CHECK (status IN ('running', 'success', 'partial', 'failed'))] *)
Definition valid_status (s : string) : bool :=
  text_in s ["running"; "success"; "partial"; "failed"].

(** The six [valid_*] constraints of stock_scores. *)
Definition valid_moat (c : score_cols) : bool := between (moat_score c) 0 20.
Definition valid_growth (c : score_cols) : bool := between (growth_score c) 0 20.
Definition valid_balance (c : score_cols) : bool := between (balance_score c) 0 20.
Definition valid_valuation (c : score_cols) : bool := between (valuation_score c) 0 20.
Definition valid_sentiment (c : score_cols) : bool := between (sentiment_score c) 0 20.
Definition valid_dividend (c : score_cols) : bool := between (dividend_score c) 0 20.

(** Primary keys and the foreign keys [REFERENCES tickers(ticker)]. *)
Definition ticker_exists (d : db) (k : string) : bool :=
  existsb (fun t => String.eqb (t_ticker t) k) (tickers d).

Definition tickers_pkey (l : list ticker) : bool :=
  distinct String.eqb (map t_ticker l).
Definition stock_states_pkey (l : list stock_state) : bool :=
  distinct String.eqb (map ss_ticker l).
Definition stock_scores_pkey (l : list stock_score) : bool :=
  distinct String.eqb (map (fun r => sc_ticker (cols r)) l).
Definition pipeline_runs_pkey (l : list pipeline_run) : bool :=
  distinct Z.eqb (map id l).

Definition stock_states_fkey (d : db) : bool :=
  forallb (fun r => ticker_exists d (ss_ticker r)) (stock_states d).
Definition stock_scores_fkey (d : db) : bool :=
  forallb (fun r => ticker_exists d (sc_ticker (cols r))) (stock_scores d).

(** ** Expressions *)

(** [x = v] on a nullable text (or integer) [x]: never true on NULL. *)
Definition text_is (x : option string) (v : string) : bool :=
  match x with
  | Some s => String.eqb s v
  | None => false
  end.

Definition int_is (x : option Z) (v : Z) : bool :=
  match x with
  | Some n => Z.eqb n v
  | None => false
  end.

(** [CASE x WHEN v1 THEN r1 ... ELSE els END] *)
Fixpoint case_when {A : Type} (x : option string) (whens : list (string * A))
  (els : A) : A :=
  match whens with
  | [] => els
  | (v, r) :: rest => if text_is x v then r else case_when x rest els
  end.

(** Assigning an expression to a [NOT NULL] column. *)
Definition not_null {A : Type} (column : string) (x : option A) : result A :=
  match x with
  | Some a => Ok a
  | None => Err (not_null_violation column)
  end.

(** The rows of a statement, one after the other; the first error aborts
    the statement. *)
Fixpoint traverse {A B : Type} (f : A -> result B) (l : list A)
  : result (list B) :=
  match l with
  | [] => Ok []
  | x :: rest =>
      do y <- f x;
      do ys <- traverse f rest;
      Ok (y :: ys)
  end.

(** Rounding of a quotient to the nearest integer, halves away from zero,
    as the cast to a [NUMERIC] of smaller scale does. *)
Definition round_div (n d : Z) : Z :=
  Z.sgn n * ((2 * Z.abs n + d) / (2 * d)).

(** ** Storing a row: column types, generated columns, [CHECK] constraints *)

Definition store_ticker (t : ticker) : result ticker :=
  ensure (smallint_ok (tier t)) (numeric_value_out_of_range "tier") ;;
  ensure (valid_tier t) (check_violation "valid_tier") ;;
  Ok t.

Definition store_state (r : stock_state) : result stock_state :=
  ensure (smallint_ok (consecutive_hot r))
         (numeric_value_out_of_range "consecutive_hot") ;;
  ensure (valid_state (current_state r)) (check_violation "valid_state") ;;
  Ok r.

(** The generated columns of stock_scores. *)
Definition total_score_of (c : score_cols) : Z :=
  moat_score c + growth_score c + balance_score c +
  valuation_score c + sentiment_score c + dividend_score c.

Definition is_triple_crown_of (c : score_cols) : bool :=
  (1400 <=? mfses_short c) && (1400 <=? mfses_mid c) && (1400 <=? mfses_long c).

Definition is_value_trap_of (c : score_cols) : bool :=
  (18 <=? valuation_score c) &&
  ((moat_score c <? 12) || (balance_score c <? 10)).

Definition is_expensive_growth_of (c : score_cols) : bool :=
  (18 <=? growth_score c) && (valuation_score c <? 8).

Definition score_types_ok (c : score_cols) : bool :=
  smallint_ok (moat_score c) && smallint_ok (growth_score c) &&
  smallint_ok (balance_score c) && smallint_ok (valuation_score c) &&
  smallint_ok (sentiment_score c) && smallint_ok (dividend_score c) &&
  numeric_ok 5 (mfses_short c) && numeric_ok 5 (mfses_mid c) &&
  numeric_ok 5 (mfses_long c).

Definition store_score (c : score_cols) : result stock_score :=
  ensure (score_types_ok c) (numeric_value_out_of_range "stock_scores") ;;
  ensure (smallint_ok (total_score_of c))
         (numeric_value_out_of_range "total_score") ;;
  ensure (valid_moat c) (check_violation "valid_moat") ;;
  ensure (valid_growth c) (check_violation "valid_growth") ;;
  ensure (valid_balance c) (check_violation "valid_balance") ;;
  ensure (valid_valuation c) (check_violation "valid_valuation") ;;
  ensure (valid_sentiment c) (check_violation "valid_sentiment") ;;
  ensure (valid_dividend c) (check_violation "valid_dividend") ;;
  Ok {| cols := c;
        total_score := total_score_of c;
        is_triple_crown := is_triple_crown_of c;
        is_value_trap := is_value_trap_of c;
        is_expensive_growth := is_expensive_growth_of c |}.

Definition store_run (r : pipeline_run) : result pipeline_run :=
  ensure (match duration_seconds r with
          | Some h => numeric_ok 8 h
          | None => true
          end) (numeric_value_out_of_range "duration_seconds") ;;
  ensure (match retry_count r with
          | Some n => smallint_ok n
          | None => true
          end) (numeric_value_out_of_range "retry_count") ;;
  ensure (valid_status (status r)) (check_violation "valid_status") ;;
  Ok r.

(** ** Plain statements on the tables

    The row-level policies of the schema are [FOR ALL USING (true) WITH
    CHECK (true)], so every [INSERT], [UPDATE] and [DELETE] that the
    constraints accept is available to a client. *)

Definition insert_ticker (t : ticker) (d : db) : result db :=
  do t' <- store_ticker t;
  let rows := tickers d ++ [t'] in
  ensure (tickers_pkey rows) (unique_violation "tickers_pkey") ;;
  Ok (with_tickers d rows).

Definition update_tickers (wh : ticker -> bool) (set : ticker -> ticker)
  (d : db) : result db :=
  do rows <- traverse (fun t => if wh t then store_ticker (set t) else Ok t)
                      (tickers d);
  let d' := with_tickers d rows in
  ensure (tickers_pkey rows) (unique_violation "tickers_pkey") ;;
  ensure (stock_states_fkey d')
         (foreign_key_violation "stock_states_ticker_fkey") ;;
  ensure (stock_scores_fkey d')
         (foreign_key_violation "stock_scores_ticker_fkey") ;;
  Ok d'.

(** [ON DELETE CASCADE]: the state and score rows of a deleted ticker go
    with it. *)
Definition delete_tickers (wh : ticker -> bool) (d : db) : result db :=
  let gone := map t_ticker (filter wh (tickers d)) in
  Ok (mk_db (delete_where wh (tickers d))
            (delete_where (fun r => text_in (ss_ticker r) gone) (stock_states d))
            (delete_where (fun r => text_in (sc_ticker (cols r)) gone)
                          (stock_scores d))
            (pipeline_runs d)).

Definition insert_state (r : stock_state) (d : db) : result db :=
  do r' <- store_state r;
  let rows := stock_states d ++ [r'] in
  ensure (stock_states_pkey rows) (unique_violation "stock_states_pkey") ;;
  ensure (ticker_exists d (ss_ticker r'))
         (foreign_key_violation "stock_states_ticker_fkey") ;;
  Ok (with_states d rows).

Definition update_states (wh : stock_state -> bool)
  (set : stock_state -> stock_state) (d : db) : result db :=
  do rows <- traverse (fun r => if wh r then store_state (set r) else Ok r)
                      (stock_states d);
  let d' := with_states d rows in
  ensure (stock_states_pkey rows) (unique_violation "stock_states_pkey") ;;
  ensure (stock_states_fkey d')
         (foreign_key_violation "stock_states_ticker_fkey") ;;
  Ok d'.

Definition delete_states (wh : stock_state -> bool) (d : db) : result db :=
  Ok (with_states d (delete_where wh (stock_states d))).

(** A statement on stock_scores gives the assignable columns only: a value
    for a generated column is refused by the parser. *)
Definition insert_score (c : score_cols) (d : db) : result db :=
  do r <- store_score c;
  let rows := stock_scores d ++ [r] in
  ensure (stock_scores_pkey rows) (unique_violation "stock_scores_pkey") ;;
  ensure (ticker_exists d (sc_ticker c))
         (foreign_key_violation "stock_scores_ticker_fkey") ;;
  Ok (with_scores d rows).

Definition update_scores (wh : stock_score -> bool)
  (set : stock_score -> score_cols) (d : db) : result db :=
  do rows <- traverse (fun r => if wh r then store_score (set r) else Ok r)
                      (stock_scores d);
  let d' := with_scores d rows in
  ensure (stock_scores_pkey rows) (unique_violation "stock_scores_pkey") ;;
  ensure (stock_scores_fkey d')
         (foreign_key_violation "stock_scores_ticker_fkey") ;;
  Ok d'.

Definition delete_scores (wh : stock_score -> bool) (d : db) : result db :=
  Ok (with_scores d (delete_where wh (stock_scores d))).

Definition insert_run (r : pipeline_run) (d : db) : result db :=
  do r' <- store_run r;
  let rows := pipeline_runs d ++ [r'] in
  ensure (pipeline_runs_pkey rows) (unique_violation "pipeline_runs_pkey") ;;
  Ok (with_runs d rows).

Definition update_runs (wh : pipeline_run -> bool)
  (set : pipeline_run -> pipeline_run) (d : db) : result db :=
  do rows <- traverse (fun r => if wh r then store_run (set r) else Ok r)
                      (pipeline_runs d);
  ensure (pipeline_runs_pkey rows) (unique_violation "pipeline_runs_pkey") ;;
  Ok (with_runs d rows).

Definition delete_runs (wh : pipeline_run -> bool) (d : db) : result db :=
  Ok (with_runs d (delete_where wh (pipeline_runs d))).

(** ** The functions of the schema *)

(** *** get_tickers_due_for_update *)

(** [FROM stock_states ss JOIN tickers t ON ss.ticker = t.ticker] *)
Definition join_states_tickers (d : db) : list (stock_state * ticker) :=
  flat_map
    (fun ss =>
       map (pair ss)
           (filter (fun t => String.eqb (ss_ticker ss) (t_ticker t)) (tickers d)))
    (stock_states d).

(** [WHERE t.is_active = true AND ss.next_update_due <= now()] *)
Definition due_where (now : timestamptz) (row : stock_state * ticker) : bool :=
  is_active (snd row) && (next_update_due (fst row) <=? now).

(** [CASE ss.current_state WHEN 'HOT' THEN 1 WHEN 'WARM' THEN 2
     WHEN 'COLD' THEN 3 WHEN 'FROZEN' THEN 4 END]: NULL on any other text. *)
Definition state_priority (s : string) : option Z :=
  case_when (Some s)
    [("HOT", Some 1); ("WARM", Some 2); ("COLD", Some 3); ("FROZEN", Some 4)]
    None.

(** Ascending order on a nullable integer: NULLs come last. *)
Definition nulls_last_compare (a b : option Z) : comparison :=
  match a, b with
  | Some x, Some y => x ?= y
  | Some _, None => Lt
  | None, Some _ => Gt
  | None, None => Eq
  end.

(** [ORDER BY CASE ... END, ss.next_update_due ASC] *)
Definition due_order_leb (r1 r2 : stock_state * ticker) : bool :=
  match nulls_last_compare (state_priority (current_state (fst r1)))
                           (state_priority (current_state (fst r2))) with
  | Lt => true
  | Gt => false
  | Eq => next_update_due (fst r1) <=? next_update_due (fst r2)
  end.

(** The sort of [ORDER BY]: rows that tie on every key keep the order in
    which the scan delivered them. *)
Fixpoint insert_sorted {A : Type} (leb : A -> A -> bool) (x : A) (l : list A)
  : list A :=
  match l with
  | [] => [x]
  | y :: rest => if leb x y then x :: l else y :: insert_sorted leb x rest
  end.

Definition order_by {A : Type} (leb : A -> A -> bool) (l : list A) : list A :=
  fold_right (insert_sorted leb) [] l.

(** The rows the query selects, before the projection. *)
Definition due_rows (now : timestamptz) (d : db) : list (stock_state * ticker) :=
  order_by due_order_leb (filter (due_where now) (join_states_tickers d)).

(** [SELECT ss.ticker, ss.current_state, ss.last_updated] *)
Definition due_columns (row : stock_state * ticker)
  : string * string * timestamptz :=
  (ss_ticker (fst row), current_state (fst row), last_updated (fst row)).

Definition get_tickers_due_for_update (now : timestamptz) (d : db)
  : list (string * string * timestamptz) :=
  map due_columns (due_rows now d).

(** *** update_markov_state *)

Definition interval_minutes (p_new_state : option string) : Z :=
  case_when p_new_state
    [("HOT", 30); ("WARM", 120); ("COLD", 360); ("FROZEN", 1440)]
    360.

(** The [SET] list of the [UPDATE], on one row. *)
Definition markov_set (now : timestamptz) (p_new_state p_reason : option string)
  (r : stock_state) : result stock_state :=
  let hot :=
    if text_is p_new_state "HOT" then consecutive_hot r + 1 else 0 in
  ensure (smallint_ok hot) (numeric_value_out_of_range "consecutive_hot") ;;
  do new_state <- not_null "current_state" p_new_state;
  store_state
    {| ss_ticker := ss_ticker r;
       current_state := new_state;
       previous_state := Some (current_state r);
       last_updated := now;
       next_update_due := now + minutes (interval_minutes p_new_state);
       promotion_reason :=
         if text_is p_new_state "HOT" || text_is p_new_state "WARM"
         then p_reason else None;
       promotion_expires :=
         if text_is p_new_state "HOT" then Some (now + hours 24) else None;
       consecutive_hot := hot |}.

Definition update_markov_state (now : timestamptz)
  (p_ticker p_new_state p_reason : option string) (d : db) : result db :=
  do rows <- traverse
               (fun r => if text_is p_ticker (ss_ticker r)
                         then markov_set now p_new_state p_reason r
                         else Ok r)
               (stock_states d);
  Ok (with_states d rows).

(** *** start_pipeline_run

    [new_id] is the value [uuid_generate_v4()] draws for the [id] column. *)
Definition start_pipeline_run (now : timestamptz) (new_id : Z)
  (p_run_type : option string) (d : db) : result (Z * db) :=
  do rt <- not_null "run_type" p_run_type;
  do d' <- insert_run
             {| id := new_id;
                run_type := rt;
                started_at := now;
                finished_at := None;
                duration_seconds := None;
                markov_tickers_due := Some 0;
                collected_count := Some 0;
                scored_count := Some 0;
                states_promoted := Some 0;
                states_demoted := Some 0;
                api_calls_made := Some 0;
                api_errors := Some 0;
                status := "running";
                error_message := None;
                error_step := None;
                retry_count := Some 0 |} d;
  Ok (new_id, d').

(** *** complete_pipeline_run *)

Record run_outcome : Type := mk_run_outcome {
  p_status : option string;
  p_markov_count : option Z;
  p_collected : option Z;
  p_scored : option Z;
  p_promoted : option Z;
  p_demoted : option Z;
  p_api_calls : option Z;
  p_api_errors : option Z;
  p_error_message : option string;
  p_error_step : option string
}.

(** [EXTRACT(EPOCH FROM (now() - started_at))] stored in a [NUMERIC(8,2)]:
    seconds, rounded to hundredths. *)
Definition epoch_hundredths (now started : timestamptz) : Z :=
  round_div (now - started) 10000.

Definition complete_set (now : timestamptz) (o : run_outcome)
  (r : pipeline_run) : result pipeline_run :=
  let duration := epoch_hundredths now (started_at r) in
  ensure (numeric_ok 8 duration)
         (numeric_value_out_of_range "duration_seconds") ;;
  do new_status <- not_null "status" (p_status o);
  store_run
    {| id := id r;
       run_type := run_type r;
       started_at := started_at r;
       finished_at := Some now;
       duration_seconds := Some duration;
       markov_tickers_due := p_markov_count o;
       collected_count := p_collected o;
       scored_count := p_scored o;
       states_promoted := p_promoted o;
       states_demoted := p_demoted o;
       api_calls_made := p_api_calls o;
       api_errors := p_api_errors o;
       status := new_status;
       error_message := p_error_message o;
       error_step := p_error_step o;
       retry_count := retry_count r |}.

Definition complete_pipeline_run (now : timestamptz) (p_run_id : option Z)
  (o : run_outcome) (d : db) : result db :=
  do rows <- traverse
               (fun r => if int_is p_run_id (id r)
                         then complete_set now o r
                         else Ok r)
               (pipeline_runs d);
  Ok (with_runs d rows).

(** *** cleanup_old_data: its [DELETE] on pipeline_runs, in a session whose
    time zone is UTC, where [now() - INTERVAL '30 days'] is 30 times 86400
    seconds before [now()].  [cleanup_old_data_in], further down, is the
    whole function in the time zone of any session. *)
Definition cleanup_old_data (now : timestamptz) (d : db) : result db :=
  delete_runs (fun r => started_at r <? now - days 30) d.

(** ** Traces of statements *)

Inductive statement : Type :=
| InsertTicker (t : ticker)
| UpdateTickers (wh : ticker -> bool) (set : ticker -> ticker)
| DeleteTickers (wh : ticker -> bool)
| InsertState (r : stock_state)
| UpdateStates (wh : stock_state -> bool) (set : stock_state -> stock_state)
| DeleteStates (wh : stock_state -> bool)
| InsertScore (c : score_cols)
| UpdateScores (wh : stock_score -> bool) (set : stock_score -> score_cols)
| DeleteScores (wh : stock_score -> bool)
| InsertRun (r : pipeline_run)
| UpdateRuns (wh : pipeline_run -> bool) (set : pipeline_run -> pipeline_run)
| DeleteRuns (wh : pipeline_run -> bool)
| UpdateMarkovState (p_ticker p_new_state p_reason : option string)
| StartPipelineRun (new_id : Z) (p_run_type : option string)
| CompletePipelineRun (p_run_id : option Z) (o : run_outcome)
| CleanupOldData.

Definition exec (now : timestamptz) (s : statement) (d : db) : result db :=
  match s with
  | InsertTicker t => insert_ticker t d
  | UpdateTickers wh set => update_tickers wh set d
  | DeleteTickers wh => delete_tickers wh d
  | InsertState r => insert_state r d
  | UpdateStates wh set => update_states wh set d
  | DeleteStates wh => delete_states wh d
  | InsertScore c => insert_score c d
  | UpdateScores wh set => update_scores wh set d
  | DeleteScores wh => delete_scores wh d
  | InsertRun r => insert_run r d
  | UpdateRuns wh set => update_runs wh set d
  | DeleteRuns wh => delete_runs wh d
  | UpdateMarkovState k s r => update_markov_state now k s r d
  | StartPipelineRun new_id rt =>
      do res <- start_pipeline_run now new_id rt d; Ok (snd res)
  | CompletePipelineRun k o => complete_pipeline_run now k o d
  | CleanupOldData => cleanup_old_data now d
  end.

(** A statement that raises an error is rolled back: the database is as
    before. *)
Definition step (d : db) (e : timestamptz * statement) : db :=
  match exec (fst e) (snd e) d with
  | Ok d' => d'
  | Err _ => d
  end.

Definition run_trace (trace : list (timestamptz * statement)) (d : db) : db :=
  fold_left step trace d.

(** ** The prioritizer *)

(** Modelled from the spec: [selectBatch], the prioritizer that truncates
    the due list to the budget, is not under src/ (the schema holds only
    [get_tickers_due_for_update], which has no [LIMIT]).  Following
    section 4.2, it calls [dueInstruments] and keeps the first [budget]
    entries. *)
Definition selectBatch (now : timestamptz) (budget : Z) (d : db)
  : list (string * string * timestamptz) :=
  firstn (Z.to_nat budget) (get_tickers_due_for_update now d).

(** ** The composites of the scoring engine *)

Section Composites.
Local Open Scope Q_scope.

Record weights : Type := mk_weights {
  w_moat : Q;
  w_growth : Q;
  w_balance : Q;
  w_valuation : Q;
  w_sentiment : Q;
  w_dividend : Q
}.

Definition weight_sum (w : weights) : Q :=
  w_moat w + w_growth w + w_balance w + w_valuation w + w_sentiment w +
  w_dividend w.

(** Modelled from the spec: the scorer that computes the three composites
    is not under src/ (the schema only stores them).  The weights are those
    of section 4.3, which are also the ones the [COMMENT ON COLUMN] lines of
    the schema give for mfses_short, mfses_mid and mfses_long. *)
Definition short_weights : weights :=
  {| w_growth := 0.35; w_valuation := 0.20; w_sentiment := 0.15;
     w_moat := 0.15; w_balance := 0.10; w_dividend := 0.05 |}.

(** Modelled from the spec: the mid-horizon weights of section 4.3 (the
    scorer is not under src/). *)
Definition mid_weights : weights :=
  {| w_moat := 0.30; w_valuation := 0.20; w_growth := 0.20;
     w_balance := 0.15; w_dividend := 0.10; w_sentiment := 0.05 |}.

(** Modelled from the spec: the long-horizon weights of section 4.3 (the
    scorer is not under src/). *)
Definition long_weights : weights :=
  {| w_moat := 0.30; w_balance := 0.25; w_dividend := 0.15;
     w_valuation := 0.15; w_growth := 0.10; w_sentiment := 0.05 |}.

(** Modelled from the spec: a composite is the weighted sum of the six
    factor scores, section 4.3 (the scorer is not under src/). *)
Definition composite (w : weights)
  (moat growth balance valuation sentiment dividend : Z) : Q :=
  w_moat w * inject_Z moat + w_growth w * inject_Z growth +
  w_balance w * inject_Z balance + w_valuation w * inject_Z valuation +
  w_sentiment w * inject_Z sentiment + w_dividend w * inject_Z dividend.

End Composites.

(** ** The Polygon call limiter *)

Module Polygon.

(** The module-level state of [polyFetch] and what surrounds it: the value
    of [Date.now()] in milliseconds, [lastCall], the [setTimeout] timers of
    the calls that are waiting (each with the time it is due), and the
    start times of the requests issued so far, latest first. *)
Record limiter : Type := mk_limiter {
  clock : Z;
  lastCall : Z;
  timers : list Z;
  fetches : list Z
}.

(** [var lastCall = 0] at module load. *)
Definition boot (t0 : Z) : limiter := mk_limiter t0 0 [] [].

Inductive event : Type :=
| Tick (ms : Z)
| Call
| Resume (i : nat).

(** [lastCall = Date.now()] and the request that follows it in the same
    synchronous run. *)
Definition issue (s : limiter) : limiter :=
  mk_limiter (clock s) (clock s) (timers s) (clock s :: fetches s).

Fixpoint remove_nth {A : Type} (i : nat) (l : list A) : list A :=
  match i, l with
  | _, [] => []
  | O, _ :: rest => rest
  | S j, x :: rest => x :: remove_nth j rest
  end.

(** [polyFetch] from its entry to its [await]: it reads the clock, computes
    the wait and, if there is one, leaves a timer and suspends; with no wait
    it goes on to the request at once. *)
Definition polyFetch_enter (s : limiter) : limiter :=
  let now := clock s in
  let wait := Z.max 0 (150 - (now - lastCall s)) in
  if 0 <? wait
  then mk_limiter (clock s) (lastCall s) (timers s ++ [now + wait]) (fetches s)
  else issue s.

(** [polyFetch] after its [await]: the continuation of the [i]-th waiting
    call; a timer does not fire before it is due. *)
Definition polyFetch_resume (i : nat) (s : limiter) : option limiter :=
  match nth_error (timers s) i with
  | Some due =>
      if due <=? clock s
      then Some (issue (mk_limiter (clock s) (lastCall s)
                                   (remove_nth i (timers s)) (fetches s)))
      else None
  | None => None
  end.

(** One event of the single JavaScript thread.  [Tick] lets time pass: the
    clock does not go back. *)
Definition step (e : event) (s : limiter) : option limiter :=
  match e with
  | Tick ms =>
      if 0 <=? ms
      then Some (mk_limiter (clock s + ms) (lastCall s) (timers s) (fetches s))
      else None
  | Call => Some (polyFetch_enter s)
  | Resume i => polyFetch_resume i s
  end.

Fixpoint run (es : list event) (s : limiter) : option limiter :=
  match es with
  | [] => Some s
  | e :: rest =>
      match step e s with
      | Some s' => run rest s'
      | None => None
      end
  end.






(** What every run keeps, whatever the interleaving. *)
Definition timely (s : limiter) : Prop :=
  lastCall s <= clock s /\
  Forall (fun due => due <= lastCall s + 150) (timers s) /\
  Forall (fun f => f <= lastCall s) (fetches s) /\
  StronglySorted Z.ge (fetches s).

(** The calls made in a sequence of events. *)
Definition calls (es : list event) : Z :=
  Z.of_nat (List.length
              (filter (fun e => match e with Call => true | _ => false end) es)).

(** A burst: one call, then [n] more before the first request is 150 ms
    old, and their [n] continuations once the 150 ms have passed. *)
Definition burst (n : nat) : list event :=
  Call :: repeat Call n ++ [Tick 150] ++ repeat (Resume 0) n.

End Polygon.

(** ** What holds of every stored row *)

Definition ticker_ok (t : ticker) : bool :=
  smallint_ok (tier t) && valid_tier t.

Definition state_ok (r : stock_state) : bool :=
  smallint_ok (consecutive_hot r) && valid_state (current_state r).

Definition score_checks (c : score_cols) : bool :=
  valid_moat c && valid_growth c && valid_balance c &&
  valid_valuation c && valid_sentiment c && valid_dividend c.

Definition score_generated (r : stock_score) : bool :=
  (total_score r =? total_score_of (cols r)) &&
  Bool.eqb (is_triple_crown r) (is_triple_crown_of (cols r)) &&
  Bool.eqb (is_value_trap r) (is_value_trap_of (cols r)) &&
  Bool.eqb (is_expensive_growth r) (is_expensive_growth_of (cols r)).

Definition score_ok (r : stock_score) : bool :=
  score_types_ok (cols r) && score_checks (cols r) && score_generated r.

Definition run_ok (r : pipeline_run) : bool :=
  match duration_seconds r with Some h => numeric_ok 8 h | None => true end &&
  match retry_count r with Some n => smallint_ok n | None => true end &&
  valid_status (status r).

Definition db_constraints (d : db) : bool :=
  forallb ticker_ok (tickers d) && forallb state_ok (stock_states d) &&
  forallb score_ok (stock_scores d) && forallb run_ok (pipeline_runs d) &&
  tickers_pkey (tickers d) && stock_states_pkey (stock_states d) &&
  stock_scores_pkey (stock_scores d) && pipeline_runs_pkey (pipeline_runs d).

(** The row of a ticker in stock_states, and of a run in pipeline_runs. *)
Definition find_state (k : string) (d : db) : option stock_state :=
  find (fun r => text_is (Some k) (ss_ticker r)) (stock_states d).

Definition find_run (k : Z) (d : db) : option pipeline_run :=
  find (fun r => int_is (Some k) (id r)) (pipeline_runs d).

Definition has_state_row (k : option string) (d : db) : bool :=
  existsb (fun r => text_is k (ss_ticker r)) (stock_states d).

Definition has_run_row (k : option Z) (d : db) : bool :=
  existsb (fun r => int_is k (id r)) (pipeline_runs d).

(** ** Sample data *)

Module Sample.

Definition t0 : timestamptz := 1700000000000000.

Definition aapl : ticker :=
  mk_ticker "AAPL" "Apple Inc" "Technology" None 1 None true t0.
Definition msft : ticker :=
  mk_ticker "MSFT" "Microsoft Corp" "Technology" None 1 None true t0.

(** [INSERT INTO stock_states (ticker) VALUES (k)]: the column defaults. *)
Definition default_state (k : string) (now : timestamptz) : stock_state :=
  mk_stock_state k "COLD" None now now None None 0.

(** [INSERT INTO stock_scores (ticker) VALUES (k)]: the column defaults. *)
Definition default_score (k : string) (now : timestamptz) : score_cols :=
  mk_score_cols k 0 0 0 0 12 0 0 0 0 None None now.

Definition bootstrap : list (timestamptz * statement) :=
  [ (t0, InsertTicker aapl);
    (t0, InsertTicker msft);
    (t0, InsertState (default_state "AAPL" t0));
    (t0, InsertState (default_state "MSFT" t0));
    (t0, InsertScore (default_score "AAPL" t0));
    (t0, StartPipelineRun 1 (Some "manual")) ].

Definition base : db := run_trace bootstrap empty_db.

Definition all_good : run_outcome :=
  mk_run_outcome (Some "success") (Some 2) (Some 2) (Some 2) (Some 0) (Some 0)
                 (Some 4) (Some 0) None None.

Definition all_bad : run_outcome :=
  mk_run_outcome (Some "failed") (Some 0) (Some 0) (Some 0) (Some 0) (Some 0)
                 (Some 0) (Some 1) (Some "prioritizer query failed")
                 (Some "markov").

(** A score row of AAPL with the given factor scores and composites. *)
Definition scored (moat growth balance valuation sentiment dividend : Z)
  (short mid long : Z) : score_cols :=
  mk_score_cols "AAPL" moat growth balance valuation sentiment dividend
                short mid long None None t0.

(** [UPDATE stock_scores SET mfses_short = v, mfses_mid = v, mfses_long = v
     WHERE ticker = 'AAPL'] *)
Definition is_aapl (r : stock_score) : bool :=
  String.eqb (sc_ticker (cols r)) "AAPL".

Definition set_composites (v : Z) (r : stock_score) : score_cols :=
  let c := cols r in
  mk_score_cols (sc_ticker c) (moat_score c) (growth_score c)
                (balance_score c) (valuation_score c) (sentiment_score c)
                (dividend_score c) v v v
                (graham_value c) (graham_upside_pct c) (scored_at c).

Definition rescored : list (timestamptz * statement) :=
  bootstrap ++ [(t0 + 1, UpdateScores is_aapl (set_composites 2000))].

(** The same two tickers and the same two state rows, the state rows
    inserted in one order and in the other. *)
Definition tied_ab : db :=
  run_trace [ (t0, InsertTicker aapl); (t0, InsertTicker msft);
              (t0, InsertState (default_state "AAPL" t0));
              (t0, InsertState (default_state "MSFT" t0)) ] empty_db.
Definition tied_ba : db :=
  run_trace [ (t0, InsertTicker aapl); (t0, InsertTicker msft);
              (t0, InsertState (default_state "MSFT" t0));
              (t0, InsertState (default_state "AAPL" t0)) ] empty_db.

(** The base after a HOT transition of AAPL, and after its run completed. *)
Definition hot_aapl : db :=
  step base (t0 + 5, UpdateMarkovState (Some "AAPL") (Some "HOT")
                                       (Some "volume_spike_3x")).
Definition finished : db :=
  step base (t0 + 10000000, CompletePipelineRun (Some 1) all_good).

(** An outcome with a status the schema does not know. *)
Definition all_odd : run_outcome :=
  mk_run_outcome (Some "done") None None None None None None None None None.

(** Two runs, started 100 and 40 days before [t0 + days 100]. *)
Definition old_runs : db :=
  run_trace [ (t0, StartPipelineRun 1 (Some "daily_full"));
              (t0 + days 60, StartPipelineRun 2 (Some "daily_full")) ] empty_db.
End Sample.

(** ** The rest of the schema: score_history, stock_raw_data and the views *)

(** TABLE 6: score_history (nullable snapshot columns; the three composites
    and graham_upside_pct in hundredths, price in ten-thousandths). *)
Record score_snapshot : Type := mk_score_snapshot {
  sh_id : Z;
  sh_ticker : string;
  recorded_at : timestamptz;
  sh_moat_score : option Z;
  sh_growth_score : option Z;
  sh_balance_score : option Z;
  sh_valuation_score : option Z;
  sh_sentiment_score : option Z;
  sh_dividend_score : option Z;
  sh_total_score : option Z;
  sh_mfses_short : option Z;
  sh_mfses_mid : option Z;
  sh_mfses_long : option Z;
  sh_graham_upside_pct : option Z;
  sh_price : option Z
}.

(** cleanup_old_data, both statements:
    [DELETE FROM score_history WHERE recorded_at < now() - INTERVAL '90 days';
     DELETE FROM pipeline_runs WHERE started_at < now() - INTERVAL '30 days'].
    A timestamp minus [INTERVAL 'n days'] is a step of n calendar days in
    the time zone of the session, which is not 24 hours a day where the
    clocks change.  The rules of the time zone are not part of the schema:
    [minus_days n t] stands for [t - INTERVAL 'n days'] in the session. *)
Definition cleanup_old_data_in (minus_days : Z -> timestamptz -> timestamptz)
  (now : timestamptz) (history : list score_snapshot) (d : db)
  : result (list score_snapshot * db) :=
  let kept := delete_where (fun h => recorded_at h <? minus_days 90 now)
                           history in
  do d' <- delete_runs (fun r => started_at r <? minus_days 30 now) d;
  Ok (kept, d').

(** A session in UTC: a day is 86400 seconds. *)
Definition utc_minus_days (n : Z) (t : timestamptz) : timestamptz :=
  t - days n.

(** TABLE 3: stock_raw_data.  Every column but the key and collected_at is
    nullable; the NUMERIC columns are kept as scaled integers. *)
Record raw_data : Type := mk_raw_data {
  rd_ticker : string;
  price : option Z;
  previous_close : option Z;
  price_change_pct : option Z;
  volume : option Z;
  avg_volume_20d : option Z;
  volume_ratio : option Z;
  rd_market_cap : option Z;
  shares_outstanding : option Z;
  fifty_two_week_high : option Z;
  fifty_two_week_low : option Z;
  eps_current : option Z;
  eps_1y_ago : option Z;
  eps_growth_rate : option Z;
  total_debt : option Z;
  shareholders_equity : option Z;
  debt_to_equity : option Z;
  annual_dividend : option Z;
  dividend_yield : option Z;
  payout_ratio : option Z;
  dividend_growth_5yr : option Z;
  consecutive_increases : option Z;
  ex_dividend_date : option Z;
  news_count_1h : option Z;
  news_count_24h : option Z;
  data_quality_score : option Z;
  last_price_update : option timestamptz;
  last_fundamental_update : option timestamptz;
  last_dividend_update : option timestamptz;
  collected_at : timestamptz
}.

(** [l LEFT JOIN r ON on]: every left row comes with each right row that
    matches it, or once with NULLs when none does. *)
Definition left_join {A B : Type} (on : A -> B -> bool) (l : list A)
  (r : list B) : list (A * option B) :=
  flat_map
    (fun a =>
       match filter (on a) r with
       | [] => [(a, None)]
       | matches => map (fun b => (a, Some b)) matches
       end)
    l.

(** The [FROM] and [WHERE] of dashboard_stocks:
    [tickers t LEFT JOIN stock_scores s ON t.ticker = s.ticker
     LEFT JOIN stock_raw_data r ON t.ticker = r.ticker
     LEFT JOIN stock_states st ON t.ticker = st.ticker
     WHERE t.is_active = true] *)
Definition dashboard_from (raw : list raw_data) (d : db)
  : list (((ticker * option stock_score) * option raw_data) * option stock_state) :=
  filter
    (fun row => is_active (fst (fst (fst row))))
    (left_join
       (fun ts st => String.eqb (t_ticker (fst (fst ts))) (ss_ticker st))
       (left_join
          (fun ts r => String.eqb (t_ticker (fst ts)) (rd_ticker r))
          (left_join
             (fun t s => String.eqb (t_ticker t) (sc_ticker (cols s)))
             (tickers d) (stock_scores d))
          raw)
       (stock_states d)).

(** A column of the nullable side of a [LEFT JOIN]. *)
Definition col {A B : Type} (f : A -> B) (x : option A) : option B :=
  option_map f x.
Definition ncol {A B : Type} (f : A -> option B) (x : option A) : option B :=
  match x with
  | Some a => f a
  | None => None
  end.

(** The columns of the view dashboard_stocks. *)
Record dashboard_row : Type := mk_dashboard_row {
  v_ticker : string;
  v_company_name : string;
  v_sector : string;
  v_industry : option string;
  v_tier : Z;
  v_price : option Z;
  v_price_change_pct : option Z;
  v_volume : option Z;
  v_volume_ratio : option Z;
  v_market_cap : option Z;
  v_moat_score : option Z;
  v_growth_score : option Z;
  v_balance_score : option Z;
  v_valuation_score : option Z;
  v_sentiment_score : option Z;
  v_dividend_score : option Z;
  v_total_score : option Z;
  v_mfses_short : option Z;
  v_mfses_mid : option Z;
  v_mfses_long : option Z;
  v_graham_value : option Z;
  v_graham_upside_pct : option Z;
  v_is_triple_crown : option bool;
  v_is_value_trap : option bool;
  v_is_expensive_growth : option bool;
  v_annual_dividend : option Z;
  v_dividend_yield : option Z;
  v_payout_ratio : option Z;
  v_dividend_growth_5yr : option Z;
  v_consecutive_increases : option Z;
  v_ex_dividend_date : option Z;
  v_eps_current : option Z;
  v_eps_growth_rate : option Z;
  v_debt_to_equity : option Z;
  v_markov_state : option string;
  v_markov_last_updated : option timestamptz;
  v_promotion_reason : option string;
  v_data_quality_score : option Z;
  v_scored_at : option timestamptz;
  v_collected_at : option timestamptz
}.

Definition dashboard_select
  (row : ((ticker * option stock_score) * option raw_data) * option stock_state)
  : dashboard_row :=
  let t := fst (fst (fst row)) in
  let s := snd (fst (fst row)) in
  let r := snd (fst row) in
  let st := snd row in
  {| v_ticker := t_ticker t;
     v_company_name := company_name t;
     v_sector := sector t;
     v_industry := industry t;
     v_tier := tier t;
     v_price := ncol price r;
     v_price_change_pct := ncol price_change_pct r;
     v_volume := ncol volume r;
     v_volume_ratio := ncol volume_ratio r;
     v_market_cap := ncol rd_market_cap r;
     v_moat_score := col (fun x => moat_score (cols x)) s;
     v_growth_score := col (fun x => growth_score (cols x)) s;
     v_balance_score := col (fun x => balance_score (cols x)) s;
     v_valuation_score := col (fun x => valuation_score (cols x)) s;
     v_sentiment_score := col (fun x => sentiment_score (cols x)) s;
     v_dividend_score := col (fun x => dividend_score (cols x)) s;
     v_total_score := col total_score s;
     v_mfses_short := col (fun x => mfses_short (cols x)) s;
     v_mfses_mid := col (fun x => mfses_mid (cols x)) s;
     v_mfses_long := col (fun x => mfses_long (cols x)) s;
     v_graham_value := ncol (fun x => graham_value (cols x)) s;
     v_graham_upside_pct := ncol (fun x => graham_upside_pct (cols x)) s;
     v_is_triple_crown := col is_triple_crown s;
     v_is_value_trap := col is_value_trap s;
     v_is_expensive_growth := col is_expensive_growth s;
     v_annual_dividend := ncol annual_dividend r;
     v_dividend_yield := ncol dividend_yield r;
     v_payout_ratio := ncol payout_ratio r;
     v_dividend_growth_5yr := ncol dividend_growth_5yr r;
     v_consecutive_increases := ncol consecutive_increases r;
     v_ex_dividend_date := ncol ex_dividend_date r;
     v_eps_current := ncol eps_current r;
     v_eps_growth_rate := ncol eps_growth_rate r;
     v_debt_to_equity := ncol debt_to_equity r;
     v_markov_state := col current_state st;
     v_markov_last_updated := col last_updated st;
     v_promotion_reason := ncol promotion_reason st;
     v_data_quality_score := ncol data_quality_score r;
     v_scored_at := col (fun x => scored_at (cols x)) s;
     v_collected_at := col collected_at r |}.

Definition dashboard_stocks (raw : list raw_data) (d : db) : list dashboard_row :=
  map dashboard_select (dashboard_from raw d).

Definition stock_raw_data_pkey (raw : list raw_data) : bool :=
  distinct String.eqb (map rd_ticker raw).

(** [SELECT COUNT( * ) FROM t WHERE wh] *)
Definition count_where {A : Type} (wh : A -> bool) (rows : list A) : Z :=
  Z.of_nat (List.length (filter wh rows)).

(** [SUM] over a nullable integer column: NULLs are skipped, and the sum of
    no value is NULL. *)
Definition sql_sum (values : list (option Z)) : option Z :=
  fold_left
    (fun acc v =>
       match v, acc with
       | None, _ => acc
       | Some x, None => Some x
       | Some x, Some a => Some (a + x)
       end)
    values None.

(** [ORDER BY started_at DESC] *)
Definition started_desc_leb (a b : pipeline_run) : bool :=
  started_at b <=? started_at a.

(** The one row of the view system_health. *)
Record health : Type := mk_health {
  total_active_tickers : Z;
  hot_count : Z;
  warm_count : Z;
  cold_count : Z;
  frozen_count : Z;
  scored_last_hour : Z;
  scored_last_24h : Z;
  last_run_status : option string;
  last_run_time : option timestamptz;
  api_calls_today : option Z
}.

Definition system_health (now : timestamptz) (d : db) : health :=
  {| total_active_tickers := count_where is_active (tickers d);
     hot_count :=
       count_where (fun r => String.eqb (current_state r) "HOT") (stock_states d);
     warm_count :=
       count_where (fun r => String.eqb (current_state r) "WARM") (stock_states d);
     cold_count :=
       count_where (fun r => String.eqb (current_state r) "COLD") (stock_states d);
     frozen_count :=
       count_where (fun r => String.eqb (current_state r) "FROZEN")
                   (stock_states d);
     scored_last_hour :=
       count_where (fun r => now - hours 1 <? scored_at (cols r)) (stock_scores d);
     scored_last_24h :=
       count_where (fun r => now - hours 24 <? scored_at (cols r))
                   (stock_scores d);
     last_run_status :=
       option_map status
         (hd_error (order_by started_desc_leb (pipeline_runs d)));
     last_run_time :=
       option_map started_at
         (hd_error (order_by started_desc_leb (pipeline_runs d)));
     api_calls_today :=
       sql_sum (map api_calls_made
                    (filter (fun r => now - hours 24 <? started_at r)
                            (pipeline_runs d))) |}.

(** What the foreign keys [REFERENCES tickers(ticker)] ask of a database. *)
Definition db_references (d : db) : bool :=
  stock_states_fkey d && stock_scores_fkey d.

(** ** The news module: scoreSentiment *)

Module Reuters.

Definition POSITIVE_WORDS : list string :=
  ["surge"; "rally"; "beat"; "exceeds"; "growth"; "profit"; "upgrade";
   "outperform"; "bullish"; "record"; "strong"; "momentum"; "breakout";
   "soar"; "gain"].

Definition NEGATIVE_WORDS : list string :=
  ["crash"; "plunge"; "miss"; "decline"; "loss"; "downgrade"; "underperform";
   "bearish"; "layoff"; "weak"; "risk"; "warning"; "sell-off"; "drop"; "cut"].

(** [lower.indexOf(w) >= 0] *)
Definition contains (lower w : string) : bool :=
  match String.index 0 w lower with
  | Some _ => true
  | None => false
  end.

(** [WORDS.forEach(function(w) { if (lower.indexOf(w) >= 0) n++; })] *)
Definition count_words (lower : string) (words : list string) : Z :=
  fold_left (fun n w => if contains lower w then n + 1 else n) words 0.

Record sentiment : Type := mk_sentiment {
  score : Z;
  label : string
}.

(** [scoreSentiment].  [toLowerCase] is the built-in of the string; it is
    taken as given.  [s = (pos - neg) / total] is a quotient of integers of
    at most two digits: its comparisons with 0.3 and -0.3 and its rounding
    by [toFixed(2)] come out as on the exact quotient, so [score] is kept in
    hundredths, rounded half away from zero. *)
Definition scoreSentiment (toLowerCase : string -> string) (text : string)
  : sentiment :=
  let lower := toLowerCase text in
  let pos := count_words lower POSITIVE_WORDS in
  let neg := count_words lower NEGATIVE_WORDS in
  let total := pos + neg in
  if total =? 0 then mk_sentiment 0 "NEUTRAL"
  else
    let label :=
      if 3 * total <? 10 * (pos - neg) then "BULLISH"
      else if 10 * (pos - neg) <? - (3 * total) then "BEARISH"
      else "NEUTRAL" in
    mk_sentiment (round_div (100 * (pos - neg)) total) label.

End Reuters.

(** ** The EDGAR module: the filing loop of fetchSubmissions *)

Module Edgar.

(** [data.filings.recent]: four arrays that run in parallel. *)
Record recent_filings : Type := mk_recent_filings {
  form : list string;
  accessionNumber : list string;
  filingDate : list string;
  primaryDocument : list string
}.

(** An entry of [form4s]; an index past the end of an array gives
    [undefined]. *)
Record form4 : Type := mk_form4 {
  accession : option string;
  date : option string;
  primaryDoc : option string;
  company : option string;
  f_tickers : list string
}.

Definition form4_at (recent : recent_filings) (name : option string)
  (data_tickers : list string) (i : nat) : form4 :=
  {| accession := nth_error (accessionNumber recent) i;
     date := nth_error (filingDate recent) i;
     primaryDoc := nth_error (primaryDocument recent) i;
     company := name;
     f_tickers := data_tickers |}.

(** [for (var i = 0; i < recent.form.length && form4s.length < 10; i++)]:
    [forms] is what is left of [recent.form] from index [i] on. *)
Fixpoint form4_loop (recent : recent_filings) (name : option string)
  (data_tickers : list string) (forms : list string) (i : nat)
  (form4s : list form4) : list form4 :=
  match forms with
  | [] => form4s
  | f :: rest =>
      if (List.length form4s <? 10)%nat
      then
        if String.eqb f "4"
        then form4_loop recent name data_tickers rest (S i)
                        (form4s ++ [form4_at recent name data_tickers i])
        else form4_loop recent name data_tickers rest (S i) form4s
      else form4s
  end.

(** The filings [fetchSubmissions] returns for a response that carries
    [filings.recent]. *)
Definition form4_filings (recent : recent_filings) (name : option string)
  (data_tickers : list string) : list form4 :=
  form4_loop recent name data_tickers (form recent) 0 [].

(** The indices of [recent.form] that hold a Form 4. *)
Fixpoint form4_indices (forms : list string) (i : nat) : list nat :=
  match forms with
  | [] => []
  | f :: rest =>
      if String.eqb f "4" then i :: form4_indices rest (S i)
      else form4_indices rest (S i)
  end.

End Edgar.

(** ** More sample data *)

Module SampleMore.

(** Two score snapshots, recorded 100 and 40 days before
    [Sample.t0 + days 100]. *)
Definition old_history : list score_snapshot :=
  [ mk_score_snapshot 1 "AAPL" Sample.t0 None None None None None None None
                      None None None None None;
    mk_score_snapshot 2 "AAPL" (Sample.t0 + days 60) None None None None None
                      None None None None None None None ].

(** The raw data of AAPL: a price of 187.4400 and nothing else yet. *)
Definition raw_aapl : raw_data :=
  mk_raw_data "AAPL" (Some 1874400) None None None None None None None None
              None None None None None None None None None None None None
              None None None None None None None Sample.t0.

End SampleMore.

(** * Properties *)

(** ** Lists, results and keys *)

Lemma bind_ok {A B : Type} (m : result A) (k : A -> result B) (b : B) :
  bind m k = Ok b -> exists a, m = Ok a /\ k a = Ok b.
Proof.
  destruct m as [a|e]; simpl; intro H; [eauto | discriminate].
Qed.

Lemma ensure_ok (b : bool) (e : sql_error) (u : unit) :
  ensure b e = Ok u -> b = true.
Proof.
  destruct b; simpl; [reflexivity | discriminate].
Qed.

(** Peels the binds of a statement that succeeded. *)
Ltac ok_inv H :=
  repeat match type of H with
    | bind (ensure _ _) _ = Ok _ =>
        let u := fresh "u" in
        let Hb := fresh "Hb" in
        apply bind_ok in H; destruct H as (u & Hb & H);
        apply ensure_ok in Hb
    | bind _ _ = Ok _ =>
        let x := fresh "x" in
        let Hx := fresh "Hx" in
        apply bind_ok in H; destruct H as (x & Hx & H)
    | Ok _ = Ok _ => injection H as H
    end.

Lemma with_states_same (d : db) : with_states d (stock_states d) = d.
Proof. destruct d; reflexivity. Qed.

Lemma with_runs_same (d : db) : with_runs d (pipeline_runs d) = d.
Proof. destruct d; reflexivity. Qed.

Section Traverse.
Context {A : Type} (hit : A -> bool) (g : A -> result A).

Let upd (r : A) : result A := if hit r then g r else Ok r.

Lemma traverse_no_hit (l : list A) :
  existsb hit l = false -> traverse upd l = Ok l.
Proof.
  induction l as [|x l IH]; simpl; [reflexivity|].
  intro H. apply orb_false_iff in H. destruct H as [Hx Hl].
  unfold upd at 1. rewrite Hx. simpl. rewrite (IH Hl). reflexivity.
Qed.

Lemma traverse_forallb (ok : A -> bool) (l l' : list A) :
  (forall r r', g r = Ok r' -> ok r' = true) ->
  forallb ok l = true -> traverse upd l = Ok l' -> forallb ok l' = true.
Proof.
  intro Hg. revert l'.
  induction l as [|x l IH]; simpl; intros l' Hl H.
  - injection H as <-. reflexivity.
  - apply andb_true_iff in Hl. destruct Hl as [Hx Hl].
    apply bind_ok in H. destruct H as (y & Hy & H).
    apply bind_ok in H. destruct H as (ys & Hys & H).
    injection H as <-. simpl.
    rewrite (IH _ Hl Hys), andb_true_r.
    unfold upd in Hy. destruct (hit x).
    + eapply Hg; eassumption.
    + injection Hy as <-. assumption.
Qed.

Lemma traverse_keys {K : Type} (key : A -> K) (l l' : list A) :
  (forall r r', g r = Ok r' -> key r' = key r) ->
  traverse upd l = Ok l' -> map key l' = map key l.
Proof.
  intro Hg. revert l'.
  induction l as [|x l IH]; simpl; intros l' H.
  - injection H as <-. reflexivity.
  - apply bind_ok in H. destruct H as (y & Hy & H).
    apply bind_ok in H. destruct H as (ys & Hys & H).
    injection H as <-. simpl. rewrite (IH _ Hys). f_equal.
    unfold upd in Hy. destruct (hit x).
    + eapply Hg; eassumption.
    + injection Hy as <-. reflexivity.
Qed.

(** The first selected row that is refused aborts the statement. *)
Lemma traverse_hit_err (l : list A) (r : A) (e : sql_error) :
  find hit l = Some r -> g r = Err e -> traverse upd l = Err e.
Proof.
  intros Hfind Hg. induction l as [|x l IH]; simpl in *.
  - discriminate.
  - unfold upd at 1. destruct (hit x).
    + injection Hfind as ->. rewrite Hg. reflexivity.
    + simpl. rewrite (IH Hfind). reflexivity.
Qed.

(** The one row that the [WHERE] clause selects is replaced. *)
Lemma traverse_one_hit (l : list A) (r r' : A) :
  find hit l = Some r ->
  (List.length (filter hit l) <= 1)%nat ->
  g r = Ok r' -> hit r' = true ->
  exists l', traverse upd l = Ok l' /\ find hit l' = Some r'.
Proof.
  intros Hfind Hone Hg Hhit. induction l as [|x l IH]; simpl in *.
  - discriminate.
  - unfold upd at 1. destruct (hit x) eqn:Hx.
    + injection Hfind as ->. simpl in Hone.
      assert (Hno : existsb hit l = false).
      { destruct (existsb hit l) eqn:E; [|reflexivity].
        apply existsb_exists in E. destruct E as (y & Hy & Hhy).
        assert (In y (filter hit l)) by (apply filter_In; auto).
        destruct (filter hit l); [contradiction | simpl in Hone; lia]. }
      rewrite Hg. simpl. rewrite (traverse_no_hit _ Hno). simpl.
      eexists. split; [reflexivity|]. simpl. rewrite Hhit. reflexivity.
    + destruct (IH Hfind Hone) as (l' & Hl' & Hf).
      simpl. rewrite Hl'. simpl.
      eexists. split; [reflexivity|]. simpl. rewrite Hx. assumption.
Qed.
End Traverse.

Section Keys.
Context {A K : Type} (eqb : K -> K -> bool) (key : A -> K).
Hypothesis eqb_eq : forall a b, eqb a b = true <-> a = b.

Lemma existsb_key_filter (f : A -> bool) (k : K) (l : list A) :
  existsb (eqb k) (map key l) = false ->
  existsb (eqb k) (map key (filter f l)) = false.
Proof.
  induction l as [|x l IH]; simpl; [reflexivity|].
  intro H. apply orb_false_iff in H. destruct H as [Hx Hl].
  destruct (f x); simpl; [rewrite Hx|]; auto.
Qed.

Lemma distinct_filter (f : A -> bool) (l : list A) :
  distinct eqb (map key l) = true ->
  distinct eqb (map key (filter f l)) = true.
Proof.
  induction l as [|x l IH]; simpl; [reflexivity|].
  intro H. apply andb_true_iff in H. destruct H as [Hx Hl].
  destruct (f x); simpl; [|auto].
  rewrite (IH Hl), andb_true_r.
  apply negb_true_iff in Hx. apply negb_true_iff.
  now apply existsb_key_filter.
Qed.

Lemma distinct_one_hit (k : K) (l : list A) :
  distinct eqb (map key l) = true ->
  (List.length (filter (fun r => eqb k (key r)) l) <= 1)%nat.
Proof.
  induction l as [|x l IH]; simpl; [lia|].
  intro H. apply andb_true_iff in H. destruct H as [Hx Hl].
  specialize (IH Hl).
  destruct (eqb k (key x)) eqn:E; [|assumption].
  apply eqb_eq in E. subst k. simpl.
  apply negb_true_iff in Hx.
  assert (Hnone : filter (fun r => eqb (key x) (key r)) l = []).
  { destruct (filter (fun r => eqb (key x) (key r)) l) as [|y t] eqn:F;
      [reflexivity|].
    assert (Hy : In y (filter (fun r => eqb (key x) (key r)) l))
      by (rewrite F; left; reflexivity).
    apply filter_In in Hy. destruct Hy as [Hin Hk].
    assert (existsb (eqb (key x)) (map key l) = true).
    { apply existsb_exists. exists (key y). split; [|assumption].
      now apply in_map. }
    congruence. }
  rewrite Hnone. simpl. lia.
Qed.
End Keys.

Lemma Zeqb_eq (a b : Z) : Z.eqb a b = true <-> a = b.
Proof. apply Z.eqb_eq. Qed.

(** ** Stored rows satisfy their constraints *)

Lemma store_ticker_ok (t t' : ticker) :
  store_ticker t = Ok t' -> t' = t /\ ticker_ok t' = true.
Proof.
  unfold store_ticker, ticker_ok. intro H.
  destruct (smallint_ok (tier t)) eqn:E1; [|discriminate].
  destruct (valid_tier t) eqn:E2; [|discriminate].
  simpl in H. injection H as <-. rewrite E1, E2. auto.
Qed.

Lemma store_state_ok (r r' : stock_state) :
  store_state r = Ok r' -> r' = r /\ state_ok r' = true.
Proof.
  unfold store_state, state_ok. intro H.
  destruct (smallint_ok (consecutive_hot r)) eqn:E1; [|discriminate].
  destruct (valid_state (current_state r)) eqn:E2; [|discriminate].
  simpl in H. injection H as <-. rewrite E1, E2. auto.
Qed.

Lemma store_state_accepts (r : stock_state) :
  state_ok r = true -> store_state r = Ok r.
Proof.
  unfold store_state, state_ok. intro H.
  apply andb_true_iff in H. destruct H as [-> ->]. reflexivity.
Qed.

Lemma store_score_ok (c : score_cols) (r : stock_score) :
  store_score c = Ok r -> cols r = c /\ score_ok r = true.
Proof.
  unfold store_score, score_ok, score_checks, score_generated. intro H.
  destruct (score_types_ok c) eqn:E0; [|discriminate].
  destruct (smallint_ok (total_score_of c)); [|discriminate].
  destruct (valid_moat c) eqn:E1; [|discriminate].
  destruct (valid_growth c) eqn:E2; [|discriminate].
  destruct (valid_balance c) eqn:E3; [|discriminate].
  destruct (valid_valuation c) eqn:E4; [|discriminate].
  destruct (valid_sentiment c) eqn:E5; [|discriminate].
  destruct (valid_dividend c) eqn:E6; [|discriminate].
  simpl in H. injection H as <-. simpl.
  rewrite E0, E1, E2, E3, E4, E5, E6, Z.eqb_refl, !Bool.eqb_reflx. auto.
Qed.

Lemma store_run_ok (r r' : pipeline_run) :
  store_run r = Ok r' -> r' = r /\ run_ok r' = true.
Proof.
  unfold store_run, run_ok. intro H.
  destruct (match duration_seconds r with
            | Some h => numeric_ok 8 h | None => true end) eqn:E1;
    [|discriminate].
  destruct (match retry_count r with
            | Some n => smallint_ok n | None => true end) eqn:E3;
    [|discriminate].
  destruct (valid_status (status r)) eqn:E2; [|discriminate].
  simpl in H. injection H as <-. rewrite E1, E2, E3. auto.
Qed.

Lemma store_run_accepts (r : pipeline_run) :
  run_ok r = true -> store_run r = Ok r.
Proof.
  unfold store_run, run_ok. intros H.
  apply andb_true_iff in H. destruct H as [H ->].
  apply andb_true_iff in H. destruct H as [-> ->]. reflexivity.
Qed.

Lemma markov_set_ok now s reason (r r' : stock_state) :
  markov_set now s reason r = Ok r' ->
  ss_ticker r' = ss_ticker r /\ state_ok r' = true.
Proof.
  unfold markov_set. intro H.
  apply bind_ok in H. destruct H as (u & _ & H).
  apply bind_ok in H. destruct H as (ns & _ & H).
  apply store_state_ok in H. destruct H as [-> H]. auto.
Qed.

Lemma complete_set_ok now o (r r' : pipeline_run) :
  complete_set now o r = Ok r' -> id r' = id r /\ run_ok r' = true.
Proof.
  unfold complete_set. intro H.
  apply bind_ok in H. destruct H as (u & _ & H).
  apply bind_ok in H. destruct H as (ns & _ & H).
  apply store_run_ok in H. destruct H as [-> H]. auto.
Qed.

Lemma forallb_snoc {A : Type} (f : A -> bool) (l : list A) (x : A) :
  forallb f l = true -> f x = true -> forallb f (l ++ [x]) = true.
Proof.
  intros Hl Hx. rewrite forallb_app. simpl. now rewrite Hl, Hx.
Qed.

Lemma forallb_delete {A : Type} (f wh : A -> bool) (l : list A) :
  forallb f l = true -> forallb f (delete_where wh l) = true.
Proof.
  unfold delete_where. intro H. apply forallb_forall.
  intros x Hx. apply filter_In in Hx.
  rewrite forallb_forall in H. apply H. tauto.
Qed.

Lemma db_constraints_iff (d : db) :
  db_constraints d = true <->
  (forallb ticker_ok (tickers d) = true /\
   forallb state_ok (stock_states d) = true /\
   forallb score_ok (stock_scores d) = true /\
   forallb run_ok (pipeline_runs d) = true) /\
  (tickers_pkey (tickers d) = true /\
   stock_states_pkey (stock_states d) = true /\
   stock_scores_pkey (stock_scores d) = true /\
   pipeline_runs_pkey (pipeline_runs d) = true).
Proof.
  unfold db_constraints. rewrite !andb_true_iff. tauto.
Qed.

(** ** Every statement keeps the constraints *)

Ltac peel H x Hx :=
  apply bind_ok in H; destruct H as (x & Hx & H).
Ltac peel_ensure H Hb :=
  let u := fresh "u" in
  apply bind_ok in H; destruct H as (u & Hb & H); apply ensure_ok in Hb.
Ltac close_constraints :=
  apply db_constraints_iff; simpl;
  repeat split;
  auto using forallb_snoc, forallb_delete.

Lemma delete_pkey {A K : Type} (eqb : K -> K -> bool) (key : A -> K)
  (wh : A -> bool) (l : list A) :
  distinct eqb (map key l) = true ->
  distinct eqb (map key (delete_where wh l)) = true.
Proof. apply distinct_filter. Qed.

Lemma exec_constraints now (s : statement) (d d' : db) :
  db_constraints d = true -> exec now s d = Ok d' -> db_constraints d' = true.
Proof.
  intros Hd H. apply db_constraints_iff in Hd.
  destruct Hd as [(Ht & Hs & Hc & Hr) (Pt & Ps & Pc & Pr)].
  destruct s; simpl in H.
  - (* InsertTicker *)
    unfold insert_ticker in H. peel H t' Hst. peel_ensure H Hpk.
    injection H as <-. apply store_ticker_ok in Hst. destruct Hst as [-> Hok].
    close_constraints.
  - (* UpdateTickers *)
    unfold update_tickers in H. peel H rows Hrows. peel_ensure H Hpk.
    peel_ensure H Hf1. peel_ensure H Hf2. injection H as <-.
    assert (forallb ticker_ok rows = true).
    { eapply (traverse_forallb wh (fun t => store_ticker (set t)));
        [|exact Ht|exact Hrows].
      intros r r' Hr'. now apply store_ticker_ok in Hr'. }
    close_constraints.
  - (* DeleteTickers *)
    unfold delete_tickers in H. injection H as <-.
    close_constraints; now apply delete_pkey.
  - (* InsertState *)
    unfold insert_state in H. peel H r' Hst. peel_ensure H Hpk.
    peel_ensure H Hfk. injection H as <-.
    apply store_state_ok in Hst. destruct Hst as [-> Hok].
    close_constraints.
  - (* UpdateStates *)
    unfold update_states in H. peel H rows Hrows. peel_ensure H Hpk.
    peel_ensure H Hfk. injection H as <-.
    assert (forallb state_ok rows = true).
    { eapply (traverse_forallb wh (fun r => store_state (set r)));
        [|exact Hs|exact Hrows].
      intros r r' Hr'. now apply store_state_ok in Hr'. }
    close_constraints.
  - (* DeleteStates *)
    unfold delete_states in H. injection H as <-.
    close_constraints; now apply delete_pkey.
  - (* InsertScore *)
    unfold insert_score in H. peel H r' Hst. peel_ensure H Hpk.
    peel_ensure H Hfk. injection H as <-.
    apply store_score_ok in Hst. destruct Hst as [_ Hok].
    close_constraints.
  - (* UpdateScores *)
    unfold update_scores in H. peel H rows Hrows. peel_ensure H Hpk.
    peel_ensure H Hfk. injection H as <-.
    assert (forallb score_ok rows = true).
    { eapply (traverse_forallb wh (fun r => store_score (set r)));
        [|exact Hc|exact Hrows].
      intros r r' Hr'. now apply store_score_ok in Hr'. }
    close_constraints.
  - (* DeleteScores *)
    unfold delete_scores in H. injection H as <-.
    close_constraints; now apply delete_pkey.
  - (* InsertRun *)
    unfold insert_run in H. peel H r' Hst. peel_ensure H Hpk.
    injection H as <-. apply store_run_ok in Hst. destruct Hst as [-> Hok].
    close_constraints.
  - (* UpdateRuns *)
    unfold update_runs in H. peel H rows Hrows. peel_ensure H Hpk.
    injection H as <-.
    assert (forallb run_ok rows = true).
    { eapply (traverse_forallb wh (fun r => store_run (set r)));
        [|exact Hr|exact Hrows].
      intros r r' Hr'. now apply store_run_ok in Hr'. }
    close_constraints.
  - (* DeleteRuns *)
    unfold delete_runs in H. injection H as <-.
    close_constraints; now apply delete_pkey.
  - (* UpdateMarkovState *)
    unfold update_markov_state in H. peel H rows Hrows. injection H as <-.
    assert (forallb state_ok rows = true).
    { eapply traverse_forallb; [|exact Hs|exact Hrows].
      intros r r' Hr'. now apply markov_set_ok in Hr'. }
    assert (map ss_ticker rows = map ss_ticker (stock_states d)).
    { eapply traverse_keys; [|exact Hrows].
      intros r r' Hr'. now apply markov_set_ok in Hr'. }
    close_constraints. unfold stock_states_pkey in *. congruence.
  - (* StartPipelineRun *)
    peel H res Hres. injection H as <-.
    unfold start_pipeline_run in Hres. peel Hres rt Hrt. peel Hres d1 Hins.
    injection Hres as <-. simpl.
    unfold insert_run in Hins. peel Hins r' Hst. peel_ensure Hins Hpk.
    injection Hins as <-. apply store_run_ok in Hst. destruct Hst as [-> Hok].
    close_constraints.
  - (* CompletePipelineRun *)
    unfold complete_pipeline_run in H. peel H rows Hrows. injection H as <-.
    assert (forallb run_ok rows = true).
    { eapply traverse_forallb; [|exact Hr|exact Hrows].
      intros r r' Hr'. now apply complete_set_ok in Hr'. }
    assert (map id rows = map id (pipeline_runs d)).
    { eapply traverse_keys; [|exact Hrows].
      intros r r' Hr'. now apply complete_set_ok in Hr'. }
    close_constraints. unfold pipeline_runs_pkey in *. congruence.
  - (* CleanupOldData *)
    unfold cleanup_old_data, delete_runs in H. injection H as <-.
    close_constraints; now apply delete_pkey.
Qed.

Lemma step_constraints (d : db) (e : timestamptz * statement) :
  db_constraints d = true -> db_constraints (step d e) = true.
Proof.
  intro Hd. unfold step.
  destruct (exec (fst e) (snd e) d) as [d'|err] eqn:E; [|assumption].
  eapply exec_constraints; eassumption.
Qed.

Lemma run_trace_constraints (trace : list (timestamptz * statement)) (d : db) :
  db_constraints d = true -> db_constraints (run_trace trace d) = true.
Proof.
  revert d. induction trace as [|e trace IH]; simpl; intros d Hd.
  - assumption.
  - apply IH. now apply step_constraints.
Qed.

(** ** The state machine: update_markov_state *)

Lemma valid_state_cases (s : string) :
  valid_state s = true ->
  s = "HOT" \/ s = "WARM" \/ s = "COLD" \/ s = "FROZEN".
Proof.
  unfold valid_state, text_in. simpl. rewrite !orb_true_iff, !String.eqb_eq.
  intuition discriminate.
Qed.

Lemma interval_minutes_default (s : string) :
  valid_state s = false -> interval_minutes (Some s) = 360.
Proof.
  unfold valid_state, text_in, interval_minutes. simpl.
  rewrite !orb_false_iff. intros (H1 & H2 & H3 & H4 & _).
  now rewrite H1, H2, H3, H4.
Qed.

Lemma smallint_bounds (z : Z) :
  smallint_ok z = true <-> -32768 <= z <= 32767.
Proof.
  unfold smallint_ok. rewrite andb_true_iff, !Z.leb_le. tauto.
Qed.

Lemma markov_set_accepts now (s : string) reason (r : stock_state) :
  valid_state s = true -> state_ok r = true ->
  (s = "HOT" -> consecutive_hot r < 32767) ->
  markov_set now (Some s) reason r =
  Ok {| ss_ticker := ss_ticker r;
        current_state := s;
        previous_state := Some (current_state r);
        last_updated := now;
        next_update_due := now + minutes (interval_minutes (Some s));
        promotion_reason :=
          if String.eqb s "HOT" || String.eqb s "WARM" then reason else None;
        promotion_expires :=
          if String.eqb s "HOT" then Some (now + hours 24) else None;
        consecutive_hot :=
          if String.eqb s "HOT" then consecutive_hot r + 1 else 0 |}.
Proof.
  intros Hs Hr Hhot. unfold markov_set. simpl text_is.
  apply andb_true_iff in Hr. destruct Hr as [Hsm _].
  apply smallint_bounds in Hsm.
  assert (Hnew : smallint_ok
            (if String.eqb s "HOT" then consecutive_hot r + 1 else 0) = true).
  { apply smallint_bounds. destruct (String.eqb_spec s "HOT"); [|lia].
    specialize (Hhot e). lia. }
  rewrite Hnew. simpl. apply store_state_accepts.
  unfold state_ok. simpl. now rewrite Hnew, Hs.
Qed.

Lemma markov_set_refuses now (s : string) reason (r : stock_state) :
  valid_state s = false ->
  markov_set now (Some s) reason r = Err (check_violation "valid_state").
Proof.
  intro Hs. unfold markov_set. simpl text_is.
  assert (Hhot : String.eqb s "HOT" = false).
  { unfold valid_state, text_in in Hs. simpl in Hs.
    apply orb_false_iff in Hs. tauto. }
  rewrite Hhot. simpl. unfold store_state. simpl. rewrite Hs. reflexivity.
Qed.

Lemma find_state_ok (k : string) (d : db) (r : stock_state) :
  db_constraints d = true -> find_state k d = Some r ->
  state_ok r = true /\ ss_ticker r = k.
Proof.
  intros Hd Hf. apply db_constraints_iff in Hd.
  destruct Hd as [(_ & Hs & _) _].
  apply find_some in Hf. destruct Hf as [Hin Hk]. simpl in Hk.
  apply String.eqb_eq in Hk. rewrite forallb_forall in Hs. auto.
Qed.

(** One accepted transition, with the row it leaves. *)
Lemma update_markov_state_hit now (k s : string) reason (d : db)
  (r : stock_state) :
  db_constraints d = true ->
  find_state k d = Some r ->
  valid_state s = true ->
  (s = "HOT" -> consecutive_hot r < 32767) ->
  exists d' r',
    update_markov_state now (Some k) (Some s) reason d = Ok d' /\
    db_constraints d' = true /\
    find_state k d' = Some r' /\
    markov_set now (Some s) reason r = Ok r'.
Proof.
  intros Hd Hf Hs Hhot.
  destruct (find_state_ok _ _ _ Hd Hf) as [Hr Hk].
  pose proof (markov_set_accepts now s reason r Hs Hr Hhot) as Hset.
  pose proof Hd as Hd0. apply db_constraints_iff in Hd0.
  destruct Hd0 as [_ (_ & Ps & _)].
  edestruct (traverse_one_hit
               (fun x => text_is (Some k) (ss_ticker x))
               (markov_set now (Some s) reason)
               (stock_states d) r) as (rows & Hrows & Hfind).
  - exact Hf.
  - exact (distinct_one_hit String.eqb ss_ticker String.eqb_eq k
             (stock_states d) Ps).
  - exact Hset.
  - simpl. rewrite Hk. apply String.eqb_refl.
  - exists (with_states d rows). eexists. split; [|split; [|split]].
    + unfold update_markov_state. rewrite Hrows. reflexivity.
    + apply (exec_constraints now (UpdateMarkovState (Some k) (Some s) reason) d);
        [assumption|].
      simpl. unfold update_markov_state. rewrite Hrows. reflexivity.
    + exact Hfind.
    + exact Hset.
Qed.

(** C1 (amended): for an instrument that has a state row, a transition to
    one of HOT, WARM, COLD, FROZEN (with consecutive_hot still below the
    SMALLINT maximum when the new state is HOT) succeeds and leaves the row
    with previous_state the old current_state, last_updated now,
    next_update_due now plus 30, 120, 360 or 1440 minutes, promotion_reason
    the reason for HOT and WARM and NULL otherwise, promotion_expires
    now + 24h for HOT and NULL otherwise, consecutive_hot one more for HOT
    and 0 otherwise.  Two HOT transitions in a row add two to
    consecutive_hot and leave next_update_due at the second timestamp plus
    30 minutes.  For any other text the function computes the COLD interval
    of 360 minutes, and the constraint valid_state refuses the update. *)
Theorem update_markov_state_transition
  (now now2 : timestamptz) (k s : string) (reason reason2 : option string)
  (d : db) (r : stock_state) :
  db_constraints d = true ->
  find_state k d = Some r ->
  valid_state s = true ->
  (s = "HOT" -> consecutive_hot r < 32767) ->
  (exists d' r',
      update_markov_state now (Some k) (Some s) reason d = Ok d' /\
      find_state k d' = Some r' /\
      ss_ticker r' = k /\
      current_state r' = s /\
      previous_state r' = Some (current_state r) /\
      last_updated r' = now /\
      (s = "HOT" -> next_update_due r' = now + minutes 30) /\
      (s = "WARM" -> next_update_due r' = now + minutes 120) /\
      (s = "COLD" -> next_update_due r' = now + minutes 360) /\
      (s = "FROZEN" -> next_update_due r' = now + minutes 1440) /\
      (s = "HOT" \/ s = "WARM" -> promotion_reason r' = reason) /\
      (s <> "HOT" -> s <> "WARM" -> promotion_reason r' = None) /\
      (s = "HOT" -> promotion_expires r' = Some (now + hours 24)) /\
      (s <> "HOT" -> promotion_expires r' = None) /\
      (s = "HOT" -> consecutive_hot r' = consecutive_hot r + 1) /\
      (s <> "HOT" -> consecutive_hot r' = 0)) /\
  (consecutive_hot r < 32766 ->
   exists d1 d2 r2,
      update_markov_state now (Some k) (Some "HOT") reason d = Ok d1 /\
      update_markov_state now2 (Some k) (Some "HOT") reason2 d1 = Ok d2 /\
      find_state k d2 = Some r2 /\
      consecutive_hot r2 = consecutive_hot r + 2 /\
      last_updated r2 = now2 /\
      next_update_due r2 = now2 + minutes 30 /\
      promotion_expires r2 = Some (now2 + hours 24)) /\
  (forall other, valid_state other = false ->
      interval_minutes (Some other) = 360 /\
      update_markov_state now (Some k) (Some other) reason d
      = Err (check_violation "valid_state")) /\
  interval_minutes None = 360.
Proof.
  intros Hd Hf Hs Hhot. split; [|split; [|split]].
  - destruct (update_markov_state_hit now k s reason d r Hd Hf Hs Hhot)
      as (d' & r' & Hup & _ & Hfind & Hset).
    destruct (find_state_ok _ _ _ Hd Hf) as [Hr Hk].
    rewrite (markov_set_accepts now s reason r Hs Hr Hhot) in Hset.
    injection Hset as <-.
    exists d'. eexists. split; [exact Hup|]. split; [exact Hfind|]. simpl.
    repeat split; try assumption.
    + intros ->. reflexivity.
    + intros ->. reflexivity.
    + intros ->. reflexivity.
    + intros ->. reflexivity.
    + intros [-> | ->]; reflexivity.
    + intros H1 H2. apply String.eqb_neq in H1, H2. now rewrite H1, H2.
    + intros ->. reflexivity.
    + intros H1. apply String.eqb_neq in H1. now rewrite H1.
    + intros ->. reflexivity.
    + intros H1. apply String.eqb_neq in H1. now rewrite H1.
  - intro Hroom.
    assert (Hv : valid_state "HOT" = true) by reflexivity.
    destruct (update_markov_state_hit now k "HOT" reason d r Hd Hf Hv)
      as (d1 & r1 & Hup1 & Hd1 & Hf1 & Hset1); [lia|].
    destruct (find_state_ok _ _ _ Hd Hf) as [Hr Hk].
    rewrite (markov_set_accepts now "HOT" reason r Hv Hr) in Hset1 by lia.
    injection Hset1 as <-.
    destruct (update_markov_state_hit now2 k "HOT" reason2 d1 _ Hd1 Hf1 Hv)
      as (d2 & r2 & Hup2 & Hd2 & Hf2 & Hset2); [simpl; lia|].
    destruct (find_state_ok _ _ _ Hd1 Hf1) as [Hr1 _].
    rewrite (markov_set_accepts now2 "HOT" reason2 _ Hv Hr1) in Hset2
      by (simpl; lia).
    injection Hset2 as <-.
    exists d1, d2. eexists. split; [exact Hup1|]. split; [exact Hup2|].
    split; [exact Hf2|]. simpl. repeat split. lia.
  - intros other Hother. split; [now apply interval_minutes_default|].
    unfold update_markov_state.
    rewrite (traverse_hit_err (fun x => text_is (Some k) (ss_ticker x))
               (markov_set now (Some other) reason) _ r
               (check_violation "valid_state") Hf); [reflexivity|].
    apply markov_set_refuses. exact Hother.
  - reflexivity.
Qed.

Lemma update_markov_state_transition_witness :
  exists d' r',
    update_markov_state (Sample.t0 + 5) (Some "AAPL") (Some "HOT")
                        (Some "volume_spike_3x") Sample.base = Ok d' /\
    find_state "AAPL" d' = Some r' /\
    next_update_due r' = Sample.t0 + 5 + minutes 30 /\
    consecutive_hot r' = 1.
Proof.
  destruct (update_markov_state_transition
              (Sample.t0 + 5) (Sample.t0 + 9) "AAPL" "HOT"
              (Some "volume_spike_3x") None Sample.base
              (Sample.default_state "AAPL" Sample.t0))
    as [(d' & r' & Hup & Hf & _ & _ & _ & _ & Hdue & _ & _ & _ & _ & _ & _ & _
         & Hhot & _) _].
  - vm_compute. reflexivity.
  - vm_compute. reflexivity.
  - vm_compute. reflexivity.
  - intros _. simpl. lia.
  - exists d', r'. split; [exact Hup|]. split; [exact Hf|].
    split; [apply Hdue; reflexivity | apply Hhot; reflexivity].
Defined.

(** C1, as stated, fails for a text outside the four states: the CHECK
    constraint valid_state refuses the row, and the row keeps its old
    next_update_due instead of now + 360 minutes. *)
Lemma update_markov_state_unrecognized_rejected :
  find_state "AAPL" Sample.base = Some (Sample.default_state "AAPL" Sample.t0) /\
  interval_minutes (Some "LUKEWARM") = 360 /\
  update_markov_state (Sample.t0 + 5) (Some "AAPL") (Some "LUKEWARM") None
                      Sample.base
  = Err (check_violation "valid_state") /\
  find_state "AAPL"
    (step Sample.base
          (Sample.t0 + 5, UpdateMarkovState (Some "AAPL") (Some "LUKEWARM") None))
  = Some (Sample.default_state "AAPL" Sample.t0) /\
  next_update_due (Sample.default_state "AAPL" Sample.t0)
  <> Sample.t0 + 5 + minutes 360.
Proof.
  repeat split; try (vm_compute; reflexivity).
  vm_compute. discriminate.
Qed.

(** The SMALLINT column consecutive_hot cannot go past 32767: the HOT
    transition of such a row raises an error. *)
Lemma markov_set_hot_overflow now reason (r : stock_state) :
  consecutive_hot r = 32767 ->
  markov_set now (Some "HOT") reason r
  = Err (numeric_value_out_of_range "consecutive_hot").
Proof.
  intro H. unfold markov_set. simpl. rewrite H. reflexivity.
Qed.

(** C10: update_markov_state for a ticker that has no row in stock_states,
    and complete_pipeline_run for an id that has no row in pipeline_runs,
    return without an error and leave the database as it was (no row is
    changed, none is created), whatever the other arguments are. *)
Theorem missing_row_is_noop
  (now : timestamptz) (p_ticker p_new_state p_reason : option string)
  (p_run_id : option Z) (o : run_outcome) (d : db) :
  has_state_row p_ticker d = false ->
  has_run_row p_run_id d = false ->
  update_markov_state now p_ticker p_new_state p_reason d = Ok d /\
  complete_pipeline_run now p_run_id o d = Ok d.
Proof.
  intros Hs Hr. split.
  - unfold update_markov_state.
    rewrite (traverse_no_hit (fun r => text_is p_ticker (ss_ticker r))
               (markov_set now p_new_state p_reason) _ Hs).
    simpl. now rewrite with_states_same.
  - unfold complete_pipeline_run.
    rewrite (traverse_no_hit (fun r => int_is p_run_id (id r))
               (complete_set now o) _ Hr).
    simpl. now rewrite with_runs_same.
Qed.

Lemma missing_row_is_noop_witness :
  update_markov_state (Sample.t0 + 1) (Some "TSLA") (Some "BOGUS") None
                      Sample.base = Ok Sample.base /\
  complete_pipeline_run (Sample.t0 + 1) (Some 99) Sample.all_good Sample.base
  = Ok Sample.base.
Proof.
  apply (missing_row_is_noop (Sample.t0 + 1) (Some "TSLA") (Some "BOGUS") None
           (Some 99) Sample.all_good Sample.base).
  - vm_compute. reflexivity.
  - vm_compute. reflexivity.
Defined.

(** ** The due list: get_tickers_due_for_update *)

Section OrderBy.
Context {A : Type} (leb : A -> A -> bool).
Hypothesis leb_total : forall a b, leb a b = true \/ leb b a = true.
Hypothesis leb_trans :
  forall a b c, leb a b = true -> leb b c = true -> leb a c = true.

Let before (a b : A) : Prop := leb a b = true.

Lemma insert_sorted_perm (x : A) (l : list A) :
  Permutation (x :: l) (insert_sorted leb x l).
Proof.
  induction l as [|y l IH]; simpl.
  - apply Permutation_refl.
  - destruct (leb x y).
    + apply Permutation_refl.
    + eapply perm_trans; [apply perm_swap|]. now apply perm_skip.
Qed.

Lemma order_by_perm (l : list A) : Permutation l (order_by leb l).
Proof.
  induction l as [|x l IH]; simpl.
  - apply perm_nil.
  - eapply perm_trans; [apply perm_skip, IH|]. apply insert_sorted_perm.
Qed.

Lemma insert_sorted_sorted (x : A) (l : list A) :
  StronglySorted before l -> StronglySorted before (insert_sorted leb x l).
Proof.
  induction 1 as [|y l Hl IH Hy]; simpl.
  - constructor; constructor.
  - destruct (leb x y) eqn:E.
    + constructor; [constructor; assumption|].
      constructor; [exact E|].
      eapply Forall_impl; [|exact Hy].
      intros z Hz. eapply leb_trans; eassumption.
    + constructor; [exact IH|].
      eapply Permutation_Forall; [apply insert_sorted_perm|].
      constructor; [|exact Hy].
      destruct (leb_total x y) as [H|H]; [congruence | exact H].
Qed.

Lemma order_by_sorted (l : list A) : StronglySorted before (order_by leb l).
Proof.
  induction l as [|x l IH]; simpl.
  - constructor.
  - now apply insert_sorted_sorted.
Qed.
End OrderBy.

Lemma nulls_last_compare_Lt (a b : option Z) :
  nulls_last_compare a b = Lt <->
  match a, b with
  | Some x, Some y => x < y
  | Some _, None => True
  | None, _ => False
  end.
Proof.
  destruct a as [x|], b as [y|]; simpl;
    try rewrite Z.compare_lt_iff; intuition discriminate.
Qed.

Lemma nulls_last_compare_Eq (a b : option Z) :
  nulls_last_compare a b = Eq <-> a = b.
Proof.
  destruct a as [x|], b as [y|]; simpl;
    try rewrite Z.compare_eq_iff; split; intro H;
    try discriminate; try congruence.
Qed.

Lemma nulls_last_compare_Gt (a b : option Z) :
  nulls_last_compare a b = Gt <-> nulls_last_compare b a = Lt.
Proof.
  destruct a as [x|], b as [y|]; simpl;
    try rewrite Z.compare_gt_iff, Z.compare_lt_iff;
    intuition discriminate.
Qed.

(** What the [ORDER BY] keys say of two rows. *)
Lemma due_order_leb_spec (a b : stock_state * ticker) :
  due_order_leb a b = true <->
  nulls_last_compare (state_priority (current_state (fst a)))
                     (state_priority (current_state (fst b))) = Lt \/
  (state_priority (current_state (fst a))
   = state_priority (current_state (fst b)) /\
   next_update_due (fst a) <= next_update_due (fst b)).
Proof.
  unfold due_order_leb.
  destruct (nulls_last_compare (state_priority (current_state (fst a)))
              (state_priority (current_state (fst b)))) eqn:E.
  - apply nulls_last_compare_Eq in E. rewrite Z.leb_le.
    split; [auto|]. intros [H|[_ H]]; [discriminate | exact H].
  - split; auto.
  - split; [discriminate|]. intros [H|[H _]]; [discriminate|].
    apply nulls_last_compare_Eq in H. congruence.
Qed.

Lemma due_order_total (a b : stock_state * ticker) :
  due_order_leb a b = true \/ due_order_leb b a = true.
Proof.
  rewrite !due_order_leb_spec.
  destruct (nulls_last_compare (state_priority (current_state (fst a)))
              (state_priority (current_state (fst b)))) eqn:E.
  - apply nulls_last_compare_Eq in E.
    destruct (Z.le_ge_cases (next_update_due (fst a)) (next_update_due (fst b)));
      [left | right]; right; split; auto.
  - left; left; reflexivity.
  - right; left. now apply nulls_last_compare_Gt.
Qed.

Lemma due_order_trans (a b c : stock_state * ticker) :
  due_order_leb a b = true -> due_order_leb b c = true ->
  due_order_leb a c = true.
Proof.
  rewrite !due_order_leb_spec, !nulls_last_compare_Lt.
  destruct (state_priority (current_state (fst a))) as [x|],
           (state_priority (current_state (fst b))) as [y|],
           (state_priority (current_state (fst c))) as [z|];
    intros [H1|[H1 H1']] [H2|[H2 H2']];
    try contradiction; try discriminate;
    try (injection H1 as H1); try (injection H2 as H2);
    try (left; exact I); try (left; lia);
    right; split; try lia; try reflexivity; f_equal; lia.
Qed.

Lemma state_priority_valid (s : string) :
  valid_state s = true ->
  exists p, state_priority s = Some p /\ 1 <= p <= 4.
Proof.
  intro H. apply valid_state_cases in H.
  destruct H as [-> | [-> | [-> | ->]]]; eexists; (split; [reflexivity | lia]).
Qed.

Lemma in_join_states_tickers (d : db) (ss : stock_state) (t : ticker) :
  In (ss, t) (join_states_tickers d) <->
  In ss (stock_states d) /\ In t (tickers d) /\ ss_ticker ss = t_ticker t.
Proof.
  unfold join_states_tickers. rewrite in_flat_map. split.
  - intros (x & Hx & Hin). apply in_map_iff in Hin.
    destruct Hin as (y & Heq & Hy). injection Heq as -> ->.
    apply filter_In in Hy. destruct Hy as [Hy Hk].
    apply String.eqb_eq in Hk. auto.
  - intros (Hs & Ht & Hk). exists ss. split; [assumption|].
    apply in_map. apply filter_In. split; [assumption|].
    now apply String.eqb_eq.
Qed.

Lemma in_due_rows now (d : db) (ss : stock_state) (t : ticker) :
  In (ss, t) (due_rows now d) <->
  In ss (stock_states d) /\ In t (tickers d) /\ ss_ticker ss = t_ticker t /\
  is_active t = true /\ next_update_due ss <= now.
Proof.
  unfold due_rows. split.
  - intro H.
    eapply Permutation_in in H;
      [|apply Permutation_sym, order_by_perm].
    apply filter_In in H. destruct H as [Hj Hw].
    apply in_join_states_tickers in Hj.
    unfold due_where in Hw. simpl in Hw. apply andb_true_iff in Hw.
    rewrite Z.leb_le in Hw. tauto.
  - intros (Hs & Ht & Hk & Ha & Hdue).
    eapply Permutation_in; [apply order_by_perm|].
    apply filter_In. split.
    + apply in_join_states_tickers. auto.
    + unfold due_where. simpl. rewrite Ha. simpl. now apply Z.leb_le.
Qed.

Lemma distinct_not_in (k : string) (l : list string) :
  existsb (String.eqb k) l = false -> ~ In k l.
Proof.
  intros H Hin.
  assert (existsb (String.eqb k) l = true).
  { apply existsb_exists. exists k. split; [assumption|apply String.eqb_refl]. }
  congruence.
Qed.

(** Under the two primary keys the join has one row per state row at most,
    so no ticker comes twice. *)
Lemma join_keys_NoDup (P : stock_state * ticker -> bool)
  (ts : list ticker) (states : list stock_state) :
  tickers_pkey ts = true ->
  stock_states_pkey states = true ->
  NoDup (map (fun row => ss_ticker (fst row))
             (filter P (join_states_tickers (mk_db ts states [] [])))).
Proof.
  intros Pt. unfold join_states_tickers. simpl.
  induction states as [|ss rest IH]; simpl; intro Ps.
  - constructor.
  - apply andb_true_iff in Ps. destruct Ps as [Hss Hrest].
    apply negb_true_iff in Hss. apply distinct_not_in in Hss.
    specialize (IH Hrest).
    rewrite filter_app, map_app.
    pose proof (distinct_one_hit String.eqb t_ticker String.eqb_eq
                  (ss_ticker ss) ts Pt) as Hone.
    assert (Hfresh :
      ~ In (ss_ticker ss)
          (map (fun row => ss_ticker (fst row))
               (filter P
                  (flat_map
                     (fun s => map (pair s)
                        (filter (fun t => String.eqb (ss_ticker s) (t_ticker t)) ts))
                     rest)))).
    { intro Hin. apply in_map_iff in Hin. destruct Hin as ([s t] & Hk & Hin).
      apply filter_In in Hin. destruct Hin as [Hin _].
      apply in_flat_map in Hin. destruct Hin as (s' & Hs' & Hin).
      apply in_map_iff in Hin. destruct Hin as (t' & Heq & _).
      injection Heq as -> ->. simpl in Hk.
      apply Hss. rewrite <- Hk. now apply in_map. }
    destruct (filter (fun t => String.eqb (ss_ticker ss) (t_ticker t)) ts)
      as [|t1 [|t2 more]]; simpl in *.
    + exact IH.
    + destruct (P (ss, t1)); simpl; [constructor|]; assumption.
    + lia.
Qed.

Lemma due_rows_NoDup now (d : db) :
  db_constraints d = true ->
  NoDup (map (fun row => ss_ticker (fst row)) (due_rows now d)).
Proof.
  intro Hd. apply db_constraints_iff in Hd.
  destruct Hd as [_ (Pt & Ps & _)].
  unfold due_rows.
  eapply Permutation_NoDup; [apply Permutation_map, order_by_perm|].
  exact (join_keys_NoDup (due_where now) (tickers d) (stock_states d) Pt Ps).
Qed.

(** C2 (amended): get_tickers_due_for_update returns, once each, the
    instruments that have a state row with next_update_due <= now and an
    active ticker row, sorted by state priority (HOT 1, WARM 2, COLD 3,
    FROZEN 4) and then by next_update_due ascending.  The order of rows that
    tie on both keys is the one in which the scan meets them; the query
    names no further key. *)
Theorem get_tickers_due_for_update_sorted (now : timestamptz) (d : db) :
  db_constraints d = true ->
  get_tickers_due_for_update now d = map due_columns (due_rows now d) /\
  (forall ss t,
      In (ss, t) (due_rows now d) <->
      In ss (stock_states d) /\ In t (tickers d) /\
      ss_ticker ss = t_ticker t /\
      is_active t = true /\ next_update_due ss <= now) /\
  NoDup (map (fun row => fst (fst row)) (get_tickers_due_for_update now d)) /\
  StronglySorted (fun a b => due_order_leb a b = true) (due_rows now d) /\
  (forall a b, In a (due_rows now d) -> In b (due_rows now d) ->
      exists pa pb,
        state_priority (current_state (fst a)) = Some pa /\
        state_priority (current_state (fst b)) = Some pb /\
        (due_order_leb a b = true <->
         pa < pb \/
         (pa = pb /\ next_update_due (fst a) <= next_update_due (fst b)))) /\
  state_priority "HOT" = Some 1 /\ state_priority "WARM" = Some 2 /\
  state_priority "COLD" = Some 3 /\ state_priority "FROZEN" = Some 4.
Proof.
  intro Hd. split; [reflexivity|]. split; [apply in_due_rows|].
  split; [|split; [|split]].
  - unfold get_tickers_due_for_update. rewrite map_map. simpl.
    now apply due_rows_NoDup.
  - apply order_by_sorted.
    + exact due_order_total.
    + exact due_order_trans.
  - intros [sa ta] [sb tb] Ha Hb.
    apply in_due_rows in Ha, Hb.
    destruct Ha as (Ha & _), Hb as (Hb & _).
    apply db_constraints_iff in Hd. destruct Hd as [(_ & Hs & _) _].
    rewrite forallb_forall in Hs.
    pose proof (Hs _ Ha) as Hoka. pose proof (Hs _ Hb) as Hokb.
    apply andb_true_iff in Hoka, Hokb.
    destruct Hoka as [_ Hva], Hokb as [_ Hvb].
    destruct (state_priority_valid _ Hva) as (pa & Hpa & _).
    destruct (state_priority_valid _ Hvb) as (pb & Hpb & _).
    exists pa, pb. split; [exact Hpa|]. split; [exact Hpb|].
    rewrite due_order_leb_spec, nulls_last_compare_Lt. simpl.
    rewrite Hpa, Hpb. split.
    + intros [H|[H H']]; [left; exact H|]. right. split; [congruence|exact H'].
    + intros [H|[H H']]; [left; exact H|]. right. split; [congruence|exact H'].
  - repeat split.
Qed.

Lemma get_tickers_due_for_update_sorted_witness :
  get_tickers_due_for_update (Sample.t0 + 1) Sample.base
  = map due_columns (due_rows (Sample.t0 + 1) Sample.base) /\
  StronglySorted (fun a b => due_order_leb a b = true)
                 (due_rows (Sample.t0 + 1) Sample.base).
Proof.
  destruct (get_tickers_due_for_update_sorted (Sample.t0 + 1) Sample.base)
    as (H1 & _ & _ & H4 & _).
  - vm_compute. reflexivity.
  - split; assumption.
Defined.

(** C2, as stated, fails on ties: the same rows, met by the scan in another
    order, give another list.  Both databases satisfy every constraint and
    hold the same two state rows, which tie on state and next_update_due. *)
Lemma due_ties_follow_scan_order :
  db_constraints Sample.tied_ab = true /\
  db_constraints Sample.tied_ba = true /\
  tickers Sample.tied_ab = tickers Sample.tied_ba /\
  Permutation (stock_states Sample.tied_ab) (stock_states Sample.tied_ba) /\
  get_tickers_due_for_update Sample.t0 Sample.tied_ab
  = [("AAPL", "COLD", Sample.t0); ("MSFT", "COLD", Sample.t0)] /\
  get_tickers_due_for_update Sample.t0 Sample.tied_ba
  = [("MSFT", "COLD", Sample.t0); ("AAPL", "COLD", Sample.t0)] /\
  get_tickers_due_for_update Sample.t0 Sample.tied_ab
  <> get_tickers_due_for_update Sample.t0 Sample.tied_ba.
Proof.
  split; [vm_compute; reflexivity|].
  split; [vm_compute; reflexivity|].
  split; [reflexivity|].
  split; [apply perm_swap|].
  split; [vm_compute; reflexivity|].
  split; [vm_compute; reflexivity|].
  vm_compute. discriminate.
Qed.

(** ** The prioritizer: selectBatch *)

(** C6: for a non-negative budget, selectBatch returns at most budget
    instruments, and they are the first ones of the ordered due list; the
    instruments past the budget stay in the due list, and the database is
    not written. *)
Theorem selectBatch_within_budget (now : timestamptz) (budget : Z) (d : db) :
  0 <= budget ->
  Z.of_nat (List.length (selectBatch now budget d)) <= budget /\
  Z.of_nat (List.length (selectBatch now budget d))
  = Z.min budget (Z.of_nat (List.length (get_tickers_due_for_update now d))) /\
  get_tickers_due_for_update now d
  = selectBatch now budget d
    ++ skipn (Z.to_nat budget) (get_tickers_due_for_update now d).
Proof.
  intro Hb. unfold selectBatch.
  rewrite length_firstn, firstn_skipn.
  split; [lia|]. split; [lia | reflexivity].
Qed.

Lemma selectBatch_within_budget_witness :
  Z.of_nat (List.length (selectBatch (Sample.t0 + 1) 1 Sample.base)) <= 1 /\
  Z.of_nat (List.length (get_tickers_due_for_update (Sample.t0 + 1) Sample.base))
  = 2.
Proof.
  split.
  - apply (selectBatch_within_budget (Sample.t0 + 1) 1 Sample.base). lia.
  - vm_compute. reflexivity.
Defined.

(** ** Stored rows of reachable databases *)

Lemma reachable_constraints (trace : list (timestamptz * statement)) :
  db_constraints (run_trace trace empty_db) = true.
Proof. now apply run_trace_constraints. Qed.

Lemma between_bounds (x lo hi : Z) :
  between x lo hi = true <-> lo <= x <= hi.
Proof.
  unfold between. rewrite andb_true_iff, !Z.leb_le. tauto.
Qed.

Lemma score_ok_inv (r : stock_score) :
  score_ok r = true ->
  (0 <= moat_score (cols r) <= 20 /\ 0 <= growth_score (cols r) <= 20 /\
   0 <= balance_score (cols r) <= 20 /\ 0 <= valuation_score (cols r) <= 20 /\
   0 <= sentiment_score (cols r) <= 20 /\ 0 <= dividend_score (cols r) <= 20) /\
  total_score r = total_score_of (cols r) /\
  is_triple_crown r = is_triple_crown_of (cols r) /\
  is_value_trap r = is_value_trap_of (cols r) /\
  is_expensive_growth r = is_expensive_growth_of (cols r).
Proof.
  unfold score_ok, score_checks, score_generated,
    valid_moat, valid_growth, valid_balance, valid_valuation,
    valid_sentiment, valid_dividend.
  rewrite !andb_true_iff, !between_bounds, Z.eqb_eq.
  intros [[_ Hc] [[[Ht H3] H2] H1]].
  apply eqb_prop in H1, H2, H3. tauto.
Qed.

Lemma stored_score_ok (trace : list (timestamptz * statement))
  (r : stock_score) :
  In r (stock_scores (run_trace trace empty_db)) -> score_ok r = true.
Proof.
  intro Hin. pose proof (reachable_constraints trace) as Hd.
  apply db_constraints_iff in Hd. destruct Hd as [(_ & _ & Hc & _) _].
  rewrite forallb_forall in Hc. auto.
Qed.

(** C9: after any sequence of statements on the empty schema (those that
    fail are rolled back), each of the six factor scores of every
    stock_scores row is between 0 and 20, the current_state of every
    stock_states row is one of HOT, WARM, COLD, FROZEN, and the tier of
    every tickers row is between 1 and 4. *)
Theorem check_constraints_always_hold
  (trace : list (timestamptz * statement)) :
  Forall (fun r =>
            0 <= moat_score (cols r) <= 20 /\
            0 <= growth_score (cols r) <= 20 /\
            0 <= balance_score (cols r) <= 20 /\
            0 <= valuation_score (cols r) <= 20 /\
            0 <= sentiment_score (cols r) <= 20 /\
            0 <= dividend_score (cols r) <= 20)
         (stock_scores (run_trace trace empty_db)) /\
  Forall (fun r =>
            current_state r = "HOT" \/ current_state r = "WARM" \/
            current_state r = "COLD" \/ current_state r = "FROZEN")
         (stock_states (run_trace trace empty_db)) /\
  Forall (fun t => 1 <= tier t <= 4) (tickers (run_trace trace empty_db)).
Proof.
  pose proof (reachable_constraints trace) as Hd.
  apply db_constraints_iff in Hd.
  destruct Hd as [(Ht & Hs & Hc & _) _].
  rewrite forallb_forall in Ht, Hs, Hc.
  repeat split; apply Forall_forall; intros x Hx.
  - apply (score_ok_inv x). auto.
  - specialize (Hs x Hx). apply andb_true_iff in Hs.
    apply valid_state_cases. tauto.
  - specialize (Ht x Hx). apply andb_true_iff in Ht.
    destruct Ht as [_ Ht]. unfold valid_tier in Ht.
    now apply between_bounds in Ht.
Qed.

(** ** The generated columns of stock_scores *)

Lemma hundredths_ge (n h : Z) :
  (inject_Z n <= hundredths h)%Q <-> 100 * n <= h.
Proof.
  unfold hundredths, Qle, inject_Z, Qnum, Qden. lia.
Qed.

Lemma is_triple_crown_of_spec (c : score_cols) :
  is_triple_crown_of c = true <->
  (14 <= hundredths (mfses_short c))%Q /\
  (14 <= hundredths (mfses_mid c))%Q /\
  (14 <= hundredths (mfses_long c))%Q.
Proof.
  unfold is_triple_crown_of.
  rewrite !andb_true_iff, !Z.leb_le.
  change 14%Q with (inject_Z 14). rewrite !hundredths_ge. lia.
Qed.

Lemma is_value_trap_of_spec (c : score_cols) :
  is_value_trap_of c = true <->
  18 <= valuation_score c /\ (moat_score c < 12 \/ balance_score c < 10).
Proof.
  unfold is_value_trap_of.
  rewrite andb_true_iff, orb_true_iff, Z.leb_le, !Z.ltb_lt. tauto.
Qed.

Lemma is_expensive_growth_of_spec (c : score_cols) :
  is_expensive_growth_of c = true <->
  18 <= growth_score c /\ valuation_score c < 8.
Proof.
  unfold is_expensive_growth_of.
  rewrite andb_true_iff, Z.leb_le, Z.ltb_lt. tauto.
Qed.

(** C3: in every stored score row, is_triple_crown holds iff the three
    composites are all at least 14, is_value_trap iff valuation_score >= 18
    and (moat_score < 12 or balance_score < 10), is_expensive_growth iff
    growth_score >= 18 and valuation_score < 8.  The rows stored for the
    four sample inputs carry tripleCrown(14,14,14) = true,
    tripleCrown(13.9,20,20) = false, valueTrap(18,11,15) = true and
    valueTrap(17,5,5) = false. *)
Theorem classifiers_equal_their_predicates
  (trace : list (timestamptz * statement)) (r : stock_score) :
  In r (stock_scores (run_trace trace empty_db)) ->
  (is_triple_crown r = true <->
     (14 <= hundredths (mfses_short (cols r)))%Q /\
     (14 <= hundredths (mfses_mid (cols r)))%Q /\
     (14 <= hundredths (mfses_long (cols r)))%Q) /\
  (is_value_trap r = true <->
     18 <= valuation_score (cols r) /\
     (moat_score (cols r) < 12 \/ balance_score (cols r) < 10)) /\
  (is_expensive_growth r = true <->
     18 <= growth_score (cols r) /\ valuation_score (cols r) < 8) /\
  (exists r1, store_score (Sample.scored 14 14 14 14 14 14 1400 1400 1400)
              = Ok r1 /\ is_triple_crown r1 = true) /\
  (exists r2, store_score (Sample.scored 20 20 20 20 20 20 1390 2000 2000)
              = Ok r2 /\ is_triple_crown r2 = false) /\
  (exists r3, store_score (Sample.scored 11 0 15 18 0 0 0 0 0)
              = Ok r3 /\ is_value_trap r3 = true) /\
  (exists r4, store_score (Sample.scored 5 0 5 17 0 0 0 0 0)
              = Ok r4 /\ is_value_trap r4 = false).
Proof.
  intro Hin. apply stored_score_ok in Hin. apply score_ok_inv in Hin.
  destruct Hin as (_ & _ & -> & -> & ->).
  split; [apply is_triple_crown_of_spec|].
  split; [apply is_value_trap_of_spec|].
  split; [apply is_expensive_growth_of_spec|].
  repeat split; eexists; (split; [vm_compute; reflexivity | reflexivity]).
Qed.

Lemma classifiers_equal_their_predicates_witness :
  exists r,
    In r (stock_scores (run_trace Sample.rescored empty_db)) /\
    is_triple_crown r = true /\
    (14 <= hundredths (mfses_short (cols r)))%Q.
Proof.
  destruct (store_score (Sample.scored 0 0 0 0 12 0 2000 2000 2000))
    as [r|e] eqn:E; [|vm_compute in E; discriminate].
  exists r.
  assert (Hin : In r (stock_scores (run_trace Sample.rescored empty_db))).
  { vm_compute in E. injection E as <-. vm_compute. left. reflexivity. }
  split; [exact Hin|].
  pose proof (classifiers_equal_their_predicates Sample.rescored r Hin)
    as (Htc & _).
  vm_compute in E. injection E as <-.
  split; [reflexivity|]. apply Htc. reflexivity.
Defined.

(** C4 (amended): in every stored score row, total_score is the sum of the
    six factor scores (at most 120); total_score, is_value_trap and
    is_expensive_growth are determined by the six stored factor scores and
    is_triple_crown by the three stored composites, so no statement sets
    any of the four on its own.  (The composites themselves are plain
    columns.) *)
Theorem generated_columns_follow_stored_inputs
  (trace1 trace2 : list (timestamptz * statement)) (r1 r2 : stock_score) :
  In r1 (stock_scores (run_trace trace1 empty_db)) ->
  In r2 (stock_scores (run_trace trace2 empty_db)) ->
  total_score r1
  = moat_score (cols r1) + growth_score (cols r1) + balance_score (cols r1) +
    valuation_score (cols r1) + sentiment_score (cols r1) +
    dividend_score (cols r1) /\
  0 <= total_score r1 <= 120 /\
  (moat_score (cols r1) = moat_score (cols r2) ->
   growth_score (cols r1) = growth_score (cols r2) ->
   balance_score (cols r1) = balance_score (cols r2) ->
   valuation_score (cols r1) = valuation_score (cols r2) ->
   sentiment_score (cols r1) = sentiment_score (cols r2) ->
   dividend_score (cols r1) = dividend_score (cols r2) ->
   total_score r1 = total_score r2 /\
   is_value_trap r1 = is_value_trap r2 /\
   is_expensive_growth r1 = is_expensive_growth r2) /\
  (mfses_short (cols r1) = mfses_short (cols r2) ->
   mfses_mid (cols r1) = mfses_mid (cols r2) ->
   mfses_long (cols r1) = mfses_long (cols r2) ->
   is_triple_crown r1 = is_triple_crown r2).
Proof.
  intros H1 H2.
  apply stored_score_ok in H1, H2. apply score_ok_inv in H1, H2.
  destruct H1 as (B1 & T1 & C1 & V1 & E1), H2 as (_ & T2 & C2 & V2 & E2).
  rewrite T1, T2, C1, C2, V1, V2, E1, E2.
  unfold total_score_of, is_value_trap_of, is_expensive_growth_of,
    is_triple_crown_of.
  split; [reflexivity|]. split; [lia|]. split.
  - intros -> -> -> -> -> ->. auto.
  - intros -> -> ->. reflexivity.
Qed.

Lemma generated_columns_follow_stored_inputs_witness :
  total_score
    (mk_stock_score (Sample.default_score "AAPL" Sample.t0) 12 false false false)
  = 0 + 0 + 0 + 0 + 12 + 0.
Proof.
  destruct (generated_columns_follow_stored_inputs
              Sample.bootstrap Sample.rescored
              (mk_stock_score (Sample.default_score "AAPL" Sample.t0)
                              12 false false false)
              (mk_stock_score (Sample.scored 0 0 0 0 12 0 2000 2000 2000)
                              12 true false false)) as (Hsum & _).
  - vm_compute. left. reflexivity.
  - vm_compute. left. reflexivity.
  - exact Hsum.
Defined.

(** C4, as stated, fails for the composites: they are ordinary columns.
    The row of AAPL as inserted with the column defaults and the same row
    after an UPDATE of the three composites carry the same six factor
    scores, but other composites and another is_triple_crown; neither
    mfses_short is what the weights give for these factor scores (1.80). *)
Lemma composites_are_set_independently :
  let r1 := mk_stock_score (Sample.default_score "AAPL" Sample.t0)
                           12 false false false in
  let r2 := mk_stock_score (Sample.scored 0 0 0 0 12 0 2000 2000 2000)
                           12 true false false in
  In r1 (stock_scores (run_trace Sample.bootstrap empty_db)) /\
  In r2 (stock_scores (run_trace Sample.rescored empty_db)) /\
  (moat_score (cols r1), growth_score (cols r1), balance_score (cols r1),
   valuation_score (cols r1), sentiment_score (cols r1),
   dividend_score (cols r1))
  = (moat_score (cols r2), growth_score (cols r2), balance_score (cols r2),
     valuation_score (cols r2), sentiment_score (cols r2),
     dividend_score (cols r2)) /\
  mfses_short (cols r1) <> mfses_short (cols r2) /\
  is_triple_crown r1 <> is_triple_crown r2 /\
  ~ (hundredths (mfses_short (cols r1)) == composite short_weights 0 0 0 0 12 0)%Q /\
  ~ (hundredths (mfses_short (cols r2)) == composite short_weights 0 0 0 0 12 0)%Q.
Proof.
  simpl. split; [vm_compute; left; reflexivity|].
  split; [vm_compute; left; reflexivity|].
  split; [reflexivity|].
  split; [discriminate|]. split; [discriminate|].
  split; intro H; vm_compute in H; discriminate.
Qed.

(** ** The composites *)

Lemma composite_bounds (w : weights)
  (moat growth balance valuation sentiment dividend : Z) :
  (0 <= w_moat w)%Q -> (0 <= w_growth w)%Q -> (0 <= w_balance w)%Q ->
  (0 <= w_valuation w)%Q -> (0 <= w_sentiment w)%Q -> (0 <= w_dividend w)%Q ->
  (weight_sum w == 1)%Q ->
  0 <= moat <= 20 -> 0 <= growth <= 20 -> 0 <= balance <= 20 ->
  0 <= valuation <= 20 -> 0 <= sentiment <= 20 -> 0 <= dividend <= 20 ->
  (0 <= composite w moat growth balance valuation sentiment dividend <= 20)%Q.
Proof.
  intros W1 W2 W3 W4 W5 W6 Wsum H1 H2 H3 H4 H5 H6.
  unfold composite, weight_sum in *.
  assert (Hq : forall z, 0 <= z <= 20 ->
                         (0 <= inject_Z z /\ inject_Z z <= 20)%Q).
  { intros z [Hz0 Hz20]. split.
    - change 0%Q with (inject_Z 0). now rewrite <- Zle_Qle.
    - change 20%Q with (inject_Z 20). now rewrite <- Zle_Qle. }
  apply Hq in H1, H2, H3, H4, H5, H6.
  destruct H1, H2, H3, H4, H5, H6.
  split; nra.
Qed.

(** C5: for six factor scores between 0 and 20, each of the three
    composites (short 0.35 growth + 0.20 valuation + 0.15 sentiment +
    0.15 moat + 0.10 balance + 0.05 dividend, and the mid and long ones)
    lies between 0 and 20, and each weight vector sums to exactly 1. *)
Theorem composites_within_scale
  (moat growth balance valuation sentiment dividend : Z) :
  0 <= moat <= 20 -> 0 <= growth <= 20 -> 0 <= balance <= 20 ->
  0 <= valuation <= 20 -> 0 <= sentiment <= 20 -> 0 <= dividend <= 20 ->
  ((weight_sum short_weights == 1) /\
   (weight_sum mid_weights == 1) /\
   (weight_sum long_weights == 1) /\
   (composite short_weights moat growth balance valuation sentiment dividend
    == 0.35 * inject_Z growth + 0.20 * inject_Z valuation +
       0.15 * inject_Z sentiment + 0.15 * inject_Z moat +
       0.10 * inject_Z balance + 0.05 * inject_Z dividend) /\
   (composite mid_weights moat growth balance valuation sentiment dividend
    == 0.30 * inject_Z moat + 0.20 * inject_Z valuation +
       0.20 * inject_Z growth + 0.15 * inject_Z balance +
       0.10 * inject_Z dividend + 0.05 * inject_Z sentiment) /\
   (composite long_weights moat growth balance valuation sentiment dividend
    == 0.30 * inject_Z moat + 0.25 * inject_Z balance +
       0.15 * inject_Z dividend + 0.15 * inject_Z valuation +
       0.10 * inject_Z growth + 0.05 * inject_Z sentiment) /\
   0 <= composite short_weights moat growth balance valuation sentiment dividend
     <= 20 /\
   0 <= composite mid_weights moat growth balance valuation sentiment dividend
     <= 20 /\
   0 <= composite long_weights moat growth balance valuation sentiment dividend
     <= 20)%Q.
Proof.
  intros H1 H2 H3 H4 H5 H6.
  assert (Ws : (weight_sum short_weights == 1)%Q) by reflexivity.
  assert (Wm : (weight_sum mid_weights == 1)%Q) by reflexivity.
  assert (Wl : (weight_sum long_weights == 1)%Q) by reflexivity.
  split; [exact Ws|]. split; [exact Wm|]. split; [exact Wl|].
  split; [unfold composite; simpl; ring|].
  split; [unfold composite; simpl; ring|].
  split; [unfold composite; simpl; ring|].
  split; [|split];
    apply composite_bounds; simpl; try assumption; try (unfold Qle; simpl; lia).
Qed.

Lemma composites_within_scale_witness :
  (composite short_weights 20 20 20 20 20 20 <= 20)%Q.
Proof.
  destruct (composites_within_scale 20 20 20 20 20 20)
    as (_ & _ & _ & _ & _ & _ & [_ H] & _); try lia.
  exact H.
Defined.

(** ** Pipeline runs: start_pipeline_run and complete_pipeline_run *)

Lemma valid_status_cases (s : string) :
  valid_status s = true ->
  s = "running" \/ s = "success" \/ s = "partial" \/ s = "failed".
Proof.
  unfold valid_status, text_in. simpl. rewrite !orb_true_iff, !String.eqb_eq.
  intuition discriminate.
Qed.

Lemma has_run_row_ids (k : Z) (rows : list pipeline_run) :
  existsb (Z.eqb k) (map id rows)
  = existsb (fun r => int_is (Some k) (id r)) rows.
Proof.
  induction rows as [|r rows IH]; simpl; [reflexivity|]. now rewrite IH.
Qed.

Lemma distinct_Z_snoc (l : list Z) (k : Z) :
  distinct Z.eqb l = true -> existsb (Z.eqb k) l = false ->
  distinct Z.eqb (l ++ [k]) = true.
Proof.
  induction l as [|x l IH]; simpl; [reflexivity|].
  intros Hd Hk. apply andb_true_iff in Hd. destruct Hd as [Hx Hl].
  apply orb_false_iff in Hk. destruct Hk as [Hkx Hkl].
  rewrite (IH Hl Hkl), andb_true_r.
  apply negb_true_iff in Hx. apply negb_true_iff.
  rewrite existsb_app, Hx. simpl. rewrite Z.eqb_sym, Hkx. reflexivity.
Qed.

Lemma find_snoc {A : Type} (p : A -> bool) (l : list A) (x : A) :
  existsb p l = false -> p x = true -> find p (l ++ [x]) = Some x.
Proof.
  induction l as [|y l IH]; simpl; intros Hl Hx.
  - now rewrite Hx.
  - apply orb_false_iff in Hl. destruct Hl as [-> Hl]. auto.
Qed.

(** The row start_pipeline_run inserts. *)
Lemma start_pipeline_run_fresh now (k : Z) (rt : string) (d : db) :
  db_constraints d = true ->
  has_run_row (Some k) d = false ->
  exists d' r,
    start_pipeline_run now k (Some rt) d = Ok (k, d') /\
    db_constraints d' = true /\
    find_run k d' = Some r /\
    r = mk_pipeline_run k rt now None None (Some 0) (Some 0) (Some 0)
          (Some 0) (Some 0) (Some 0) (Some 0) "running" None None (Some 0).
Proof.
  intros Hd Hk.
  pose proof Hd as Hd0. apply db_constraints_iff in Hd0.
  destruct Hd0 as [_ (_ & _ & _ & Pr)].
  set (r := mk_pipeline_run k rt now None None (Some 0) (Some 0) (Some 0)
              (Some 0) (Some 0) (Some 0) (Some 0) "running" None None (Some 0)).
  assert (Hstart :
    start_pipeline_run now k (Some rt) d
    = Ok (k, with_runs d (pipeline_runs d ++ [r]))).
  { unfold start_pipeline_run, insert_run. simpl. fold r.
    assert (Hpk : pipeline_runs_pkey (pipeline_runs d ++ [r]) = true).
    { unfold pipeline_runs_pkey. rewrite map_app. simpl.
      apply distinct_Z_snoc; [exact Pr|].
      rewrite has_run_row_ids. exact Hk. }
    rewrite Hpk. reflexivity. }
  exists (with_runs d (pipeline_runs d ++ [r])), r.
  split; [exact Hstart|]. split; [|split; [|reflexivity]].
  - apply (exec_constraints now (StartPipelineRun k (Some rt)) d);
      [assumption|].
    simpl. rewrite Hstart. reflexivity.
  - unfold find_run. simpl. apply find_snoc; [exact Hk|].
    simpl. apply Z.eqb_refl.
Qed.

(** The row complete_pipeline_run leaves. *)
Lemma complete_pipeline_run_hit now (k : Z) (o : run_outcome) (st : string)
  (d : db) (r : pipeline_run) :
  db_constraints d = true ->
  find_run k d = Some r ->
  p_status o = Some st -> valid_status st = true ->
  numeric_ok 8 (epoch_hundredths now (started_at r)) = true ->
  exists d' r',
    complete_pipeline_run now (Some k) o d = Ok d' /\
    db_constraints d' = true /\
    find_run k d' = Some r' /\
    r' = mk_pipeline_run k (run_type r) (started_at r) (Some now)
           (Some (epoch_hundredths now (started_at r)))
           (p_markov_count o) (p_collected o) (p_scored o) (p_promoted o)
           (p_demoted o) (p_api_calls o) (p_api_errors o) st
           (p_error_message o) (p_error_step o) (retry_count r).
Proof.
  intros Hd Hf Ho Hst Hdur.
  pose proof Hd as Hd0. apply db_constraints_iff in Hd0.
  destruct Hd0 as [(_ & _ & _ & Hr) (_ & _ & _ & Pr)].
  pose proof Hf as Hf0. apply find_some in Hf0. destruct Hf0 as [Hin Hk].
  simpl in Hk. apply Z.eqb_eq in Hk.
  rewrite forallb_forall in Hr. specialize (Hr r Hin).
  unfold run_ok in Hr. apply andb_true_iff in Hr. destruct Hr as [Hr _].
  apply andb_true_iff in Hr. destruct Hr as [_ Hretry].
  set (r' := mk_pipeline_run k (run_type r) (started_at r) (Some now)
               (Some (epoch_hundredths now (started_at r)))
               (p_markov_count o) (p_collected o) (p_scored o) (p_promoted o)
               (p_demoted o) (p_api_calls o) (p_api_errors o) st
               (p_error_message o) (p_error_step o) (retry_count r)).
  assert (Hset : complete_set now o r = Ok r').
  { unfold complete_set. rewrite Hdur, Ho. simpl. rewrite <- Hk. fold r'.
    apply store_run_accepts. unfold run_ok. simpl.
    now rewrite Hdur, Hretry, Hst. }
  edestruct (traverse_one_hit
               (fun x => int_is (Some k) (id x)) (complete_set now o)
               (pipeline_runs d) r r') as (rows & Hrows & Hfind).
  - exact Hf.
  - exact (distinct_one_hit Z.eqb id Zeqb_eq k (pipeline_runs d) Pr).
  - exact Hset.
  - simpl. apply Z.eqb_refl.
  - exists (with_runs d rows), r'. split; [|split; [|split; [|reflexivity]]].
    + unfold complete_pipeline_run. rewrite Hrows. reflexivity.
    + apply (exec_constraints now (CompletePipelineRun (Some k) o) d);
        [assumption|].
      simpl. unfold complete_pipeline_run. rewrite Hrows. reflexivity.
    + exact Hfind.
Qed.

(** C7 (amended): the status of every stored run is one of running,
    success, partial, failed; start_pipeline_run, for a fresh id (be it the
    first run of all), creates the run in status running with its counters
    at 0 and no finish time, duration or error; and complete_pipeline_run,
    for an existing run, one of the four statuses and a duration that fits
    NUMERIC(8,2), sets the status, finished_at, the duration, the per-step
    counters and the error fields.  The function does not look at the
    status the run already has. *)
Theorem pipeline_run_lifecycle
  (trace : list (timestamptz * statement)) (now now2 : timestamptz)
  (k k2 : Z) (rt st : string) (o : run_outcome) (r : pipeline_run) :
  Forall (fun x => status x = "running" \/ status x = "success" \/
                   status x = "partial" \/ status x = "failed")
         (pipeline_runs (run_trace trace empty_db)) /\
  (has_run_row (Some k) (run_trace trace empty_db) = false ->
   exists d1 r1,
      start_pipeline_run now k (Some rt) (run_trace trace empty_db)
      = Ok (k, d1) /\
      find_run k d1 = Some r1 /\
      id r1 = k /\
      status r1 = "running" /\ run_type r1 = rt /\ started_at r1 = now /\
      finished_at r1 = None /\ duration_seconds r1 = None /\
      markov_tickers_due r1 = Some 0 /\ collected_count r1 = Some 0 /\
      scored_count r1 = Some 0 /\ states_promoted r1 = Some 0 /\
      states_demoted r1 = Some 0 /\ api_calls_made r1 = Some 0 /\
      api_errors r1 = Some 0 /\ retry_count r1 = Some 0 /\
      error_message r1 = None /\ error_step r1 = None) /\
  (find_run k2 (run_trace trace empty_db) = Some r ->
   p_status o = Some st -> valid_status st = true ->
   numeric_ok 8 (epoch_hundredths now2 (started_at r)) = true ->
   exists d2 r2,
      complete_pipeline_run now2 (Some k2) o (run_trace trace empty_db)
      = Ok d2 /\
      find_run k2 d2 = Some r2 /\
      status r2 = st /\
      finished_at r2 = Some now2 /\
      duration_seconds r2 = Some (epoch_hundredths now2 (started_at r)) /\
      markov_tickers_due r2 = p_markov_count o /\
      collected_count r2 = p_collected o /\
      scored_count r2 = p_scored o /\
      states_promoted r2 = p_promoted o /\
      states_demoted r2 = p_demoted o /\
      api_calls_made r2 = p_api_calls o /\
      api_errors r2 = p_api_errors o /\
      error_message r2 = p_error_message o /\
      error_step r2 = p_error_step o /\
      run_type r2 = run_type r /\ started_at r2 = started_at r).
Proof.
  pose proof (reachable_constraints trace) as Hd.
  split; [|split].
  - pose proof Hd as Hd0. apply db_constraints_iff in Hd0.
    destruct Hd0 as [(_ & _ & _ & Hr) _].
    rewrite forallb_forall in Hr. apply Forall_forall. intros x Hx.
    specialize (Hr x Hx). unfold run_ok in Hr.
    apply andb_true_iff in Hr. destruct Hr as [_ Hr].
    now apply valid_status_cases.
  - intro Hfresh.
    destruct (start_pipeline_run_fresh now k rt _ Hd Hfresh)
      as (d1 & r1 & Hs & _ & Hf & ->).
    exists d1. eexists. split; [exact Hs|]. split; [exact Hf|].
    simpl. repeat split.
  - intros Hfind Ho Hst Hdur.
    destruct (complete_pipeline_run_hit now2 k2 o st _ r Hd Hfind Ho Hst Hdur)
      as (d2 & r2 & Hc & _ & Hf & ->).
    exists d2. eexists. split; [exact Hc|]. split; [exact Hf|].
    simpl. repeat split.
Qed.

Lemma pipeline_run_lifecycle_witness :
  (exists d1 r1,
      start_pipeline_run Sample.t0 1 (Some "manual") empty_db = Ok (1, d1) /\
      find_run 1 d1 = Some r1 /\
      status r1 = "running" /\ finished_at r1 = None) /\
  (exists d2 r2,
      complete_pipeline_run (Sample.t0 + 10000000) (Some 1) Sample.all_good
                            Sample.base = Ok d2 /\
      find_run 1 d2 = Some r2 /\
      status r2 = "success" /\
      duration_seconds r2 = Some 1000).
Proof.
  split.
  - destruct (pipeline_run_lifecycle
                [] Sample.t0 Sample.t0 1 1 "manual" "success" Sample.all_good
                (mk_pipeline_run 1 "manual" Sample.t0 None None (Some 0)
                   (Some 0) (Some 0) (Some 0) (Some 0) (Some 0) (Some 0)
                   "running" None None (Some 0)))
      as (_ & Hstart & _).
    destruct Hstart as (d1 & r1 & Hs & Hf & _ & Hst & _ & _ & Hfin & _).
    + vm_compute. reflexivity.
    + exists d1, r1. split; [exact Hs|]. split; [exact Hf|].
      split; [exact Hst | exact Hfin].
  - destruct (pipeline_run_lifecycle
                Sample.bootstrap (Sample.t0 + 1) (Sample.t0 + 10000000)
                2 1 "manual" "success" Sample.all_good
                (mk_pipeline_run 1 "manual" Sample.t0 None None (Some 0)
                   (Some 0) (Some 0) (Some 0) (Some 0) (Some 0) (Some 0)
                   "running" None None (Some 0)))
      as (_ & _ & Hdone).
    destruct Hdone as (d2 & r2 & Hc & Hf & Hs & _ & Hdur & _).
    + vm_compute. reflexivity.
    + reflexivity.
    + reflexivity.
    + vm_compute. reflexivity.
    + exists d2, r2. split; [exact Hc|]. split; [exact Hf|].
      split; [exact Hs|]. rewrite Hdur. vm_compute. reflexivity.
Defined.

(** C7, as stated, fails on "exactly one transition": a run that is
    already in a terminal status is completed again, with another terminal
    status and another finish time, and a completion with the status
    running is accepted as well. *)
Lemma run_completed_more_than_once :
  exists d1 d2 d3 r1 r2 r3,
    find_run 1 Sample.base
    = Some (mk_pipeline_run 1 "manual" Sample.t0 None None (Some 0) (Some 0)
              (Some 0) (Some 0) (Some 0) (Some 0) (Some 0) "running"
              None None (Some 0)) /\
    complete_pipeline_run (Sample.t0 + 10000000) (Some 1) Sample.all_good
                          Sample.base = Ok d1 /\
    find_run 1 d1 = Some r1 /\ status r1 = "success" /\
    finished_at r1 = Some (Sample.t0 + 10000000) /\
    complete_pipeline_run (Sample.t0 + 20000000) (Some 1) Sample.all_bad d1
    = Ok d2 /\
    find_run 1 d2 = Some r2 /\ status r2 = "failed" /\
    finished_at r2 = Some (Sample.t0 + 20000000) /\
    complete_pipeline_run (Sample.t0 + 30000000) (Some 1)
      (mk_run_outcome (Some "running") None None None None None None None
                      None None) d2 = Ok d3 /\
    find_run 1 d3 = Some r3 /\ status r3 = "running" /\
    finished_at r3 = Some (Sample.t0 + 30000000).
Proof.
  do 6 eexists.
  split; [vm_compute; reflexivity|].
  split; [vm_compute; reflexivity|].
  split; [vm_compute; reflexivity|].
  split; [reflexivity|]. split; [reflexivity|].
  split; [vm_compute; reflexivity|].
  split; [vm_compute; reflexivity|].
  split; [reflexivity|]. split; [reflexivity|].
  split; [vm_compute; reflexivity|].
  split; [vm_compute; reflexivity|].
  split; reflexivity.
Qed.

(** ** The Polygon call limiter *)

Module PolygonFacts.
Import Polygon.



Lemma some_eq {A : Type} (a b : A) : Some a = Some b -> a = b.
Proof. congruence. Qed.





End PolygonFacts.




(** Calls that enter polyFetch while another one is waiting read the same
    lastCall, wait for the same time and start together: the three calls
    the data hook makes at load start at 0, 150 and 150 ms. *)
Lemma polyFetch_waiting_calls_start_together :
  Polygon.run [Polygon.Call; Polygon.Call; Polygon.Call; Polygon.Tick 150;
               Polygon.Resume 0; Polygon.Resume 0] (Polygon.boot 1000000)
  = Some (Polygon.mk_limiter 1000150 1000150 []
            [1000150; 1000150; 1000000]).
Proof. vm_compute. reflexivity. Qed.

(** * Further properties of the schema *)

(** ** Primary and foreign keys *)

Lemma distinct_NoDup {K : Type} (eqb : K -> K -> bool)
  (eqb_eq : forall a b, eqb a b = true <-> a = b) (l : list K) :
  distinct eqb l = true -> NoDup l.
Proof.
  induction l as [|k l IH]; simpl; intro H; [constructor|].
  apply andb_true_iff in H. destruct H as [Hk Hl].
  constructor; [|auto].
  intro Hin. apply negb_true_iff in Hk.
  assert (existsb (eqb k) l = true).
  { apply existsb_exists. exists k. split; [assumption|]. now apply eqb_eq. }
  congruence.
Qed.

(** X1: in every database reached from the empty schema, no two rows of
    tickers, of stock_states or of stock_scores carry the same ticker, and
    no two rows of pipeline_runs the same id. *)
Theorem primary_keys_always_hold (trace : list (timestamptz * statement)) :
  NoDup (map t_ticker (tickers (run_trace trace empty_db))) /\
  NoDup (map ss_ticker (stock_states (run_trace trace empty_db))) /\
  NoDup (map (fun r => sc_ticker (cols r))
             (stock_scores (run_trace trace empty_db))) /\
  NoDup (map id (pipeline_runs (run_trace trace empty_db))).
Proof.
  pose proof (reachable_constraints trace) as Hd.
  apply db_constraints_iff in Hd. destruct Hd as [_ (Pt & Ps & Pc & Pr)].
  repeat split.
  - exact (distinct_NoDup String.eqb String.eqb_eq _ Pt).
  - exact (distinct_NoDup String.eqb String.eqb_eq _ Ps).
  - exact (distinct_NoDup String.eqb String.eqb_eq _ Pc).
  - exact (distinct_NoDup Z.eqb Zeqb_eq _ Pr).
Qed.

Lemma ticker_exists_iff (d : db) (k : string) :
  ticker_exists d k = true <-> exists t, In t (tickers d) /\ t_ticker t = k.
Proof.
  unfold ticker_exists. rewrite existsb_exists.
  split; intros (t & Hin & Hk); exists t; (split; [assumption|]);
    now apply String.eqb_eq.
Qed.

Lemma text_in_iff (s : string) (l : list string) :
  text_in s l = true <-> In s l.
Proof.
  unfold text_in. rewrite existsb_exists. split.
  - intros (x & Hin & Hx). apply String.eqb_eq in Hx. now subst.
  - intro Hin. exists s. split; [assumption | apply String.eqb_refl].
Qed.

Section References.
Context {A : Type} (key : A -> string).

(** The references of a child table, as a test on its keys. *)
Let refs (ts : list ticker) (rows : list A) : bool :=
  forallb (fun r => existsb (fun t => String.eqb (t_ticker t) (key r)) ts) rows.

Lemma refs_keys (ts : list ticker) (rows rows' : list A) :
  map key rows' = map key rows -> refs ts rows = true -> refs ts rows' = true.
Proof.
  unfold refs. revert rows'.
  induction rows as [|r rows IH]; intros [|r' rows'] Hk H;
    try discriminate; [reflexivity|].
  simpl in *. injection Hk as Hr Hk.
  apply andb_true_iff in H. destruct H as [H1 H2].
  rewrite Hr, H1. simpl. now apply IH.
Qed.

Lemma refs_more_tickers (ts : list ticker) (t : ticker) (rows : list A) :
  refs ts rows = true -> refs (ts ++ [t]) rows = true.
Proof.
  unfold refs. intro H. apply forallb_forall. intros r Hr.
  rewrite forallb_forall in H. specialize (H r Hr).
  rewrite existsb_app, H. reflexivity.
Qed.

Lemma refs_delete (ts : list ticker) (wh : A -> bool) (rows : list A) :
  refs ts rows = true -> refs ts (delete_where wh rows) = true.
Proof. unfold refs. intro H. now apply forallb_delete. Qed.

Lemma refs_snoc (ts : list ticker) (rows : list A) (r : A) :
  refs ts rows = true ->
  existsb (fun t => String.eqb (t_ticker t) (key r)) ts = true ->
  refs ts (rows ++ [r]) = true.
Proof. unfold refs. intros H1 H2. now apply forallb_snoc. Qed.

(** [ON DELETE CASCADE]: what is left of the child table refers to what is
    left of tickers. *)
Lemma refs_cascade (ts : list ticker) (wh : ticker -> bool) (rows : list A) :
  refs ts rows = true ->
  refs (delete_where wh ts)
       (delete_where
          (fun r => text_in (key r) (map t_ticker (filter wh ts))) rows)
  = true.
Proof.
  unfold refs, delete_where. intro H. apply forallb_forall. intros r Hr.
  apply filter_In in Hr. destruct Hr as [Hin Hkeep].
  apply negb_true_iff in Hkeep.
  rewrite forallb_forall in H. specialize (H r Hin).
  apply existsb_exists in H. destruct H as (t & Ht & Hk).
  apply existsb_exists. exists t. split; [|exact Hk].
  apply filter_In. split; [exact Ht|].
  apply negb_true_iff. destruct (wh t) eqn:Hw; [|reflexivity].
  apply String.eqb_eq in Hk.
  assert (text_in (key r) (map t_ticker (filter wh ts)) = true).
  { apply text_in_iff. rewrite <- Hk. apply in_map. apply filter_In. auto. }
  congruence.
Qed.
End References.

Lemma exec_references now (s : statement) (d d' : db) :
  db_references d = true -> exec now s d = Ok d' -> db_references d' = true.
Proof.
  unfold db_references, stock_states_fkey, stock_scores_fkey, ticker_exists.
  intros Hd H. apply andb_true_iff in Hd. destruct Hd as [Hs Hc].
  destruct s; simpl in H.
  - unfold insert_ticker in H. peel H t' Hst. peel_ensure H Hpk.
    injection H as <-. simpl.
    rewrite (refs_more_tickers ss_ticker _ _ _ Hs).
    now rewrite (refs_more_tickers (fun r => sc_ticker (cols r)) _ _ _ Hc).
  - unfold update_tickers in H. peel H rows Hrows. peel_ensure H Hpk.
    peel_ensure H Hf1. peel_ensure H Hf2. injection H as <-.
    unfold stock_states_fkey, stock_scores_fkey, ticker_exists in Hf1, Hf2.
    now rewrite Hf1, Hf2.
  - unfold delete_tickers in H. injection H as <-. simpl.
    rewrite (refs_cascade ss_ticker _ wh _ Hs).
    now rewrite (refs_cascade (fun r => sc_ticker (cols r)) _ wh _ Hc).
  - unfold insert_state in H. peel H r' Hst. peel_ensure H Hpk.
    peel_ensure H Hfk. injection H as <-. simpl.
    unfold ticker_exists in Hfk.
    now rewrite (refs_snoc ss_ticker _ _ _ Hs Hfk), Hc.
  - unfold update_states in H. peel H rows Hrows. peel_ensure H Hpk.
    peel_ensure H Hfk. injection H as <-.
    unfold stock_states_fkey, ticker_exists in Hfk. simpl in *.
    now rewrite Hfk, Hc.
  - unfold delete_states in H. injection H as <-. simpl.
    now rewrite (refs_delete ss_ticker _ wh _ Hs), Hc.
  - unfold insert_score in H. peel H r' Hst. peel_ensure H Hpk.
    peel_ensure H Hfk. injection H as <-. simpl.
    apply store_score_ok in Hst. destruct Hst as [Hcols _].
    unfold ticker_exists in Hfk. rewrite <- Hcols in Hfk.
    now rewrite Hs, (refs_snoc (fun r => sc_ticker (cols r)) _ _ _ Hc Hfk).
  - unfold update_scores in H. peel H rows Hrows. peel_ensure H Hpk.
    peel_ensure H Hfk. injection H as <-.
    unfold stock_scores_fkey, ticker_exists in Hfk. simpl in *.
    now rewrite Hs, Hfk.
  - unfold delete_scores in H. injection H as <-. simpl.
    now rewrite Hs, (refs_delete (fun r => sc_ticker (cols r)) _ wh _ Hc).
  - unfold insert_run in H. peel H r' Hst. peel_ensure H Hpk.
    injection H as <-. simpl. now rewrite Hs, Hc.
  - unfold update_runs in H. peel H rows Hrows. peel_ensure H Hpk.
    injection H as <-. simpl. now rewrite Hs, Hc.
  - unfold delete_runs in H. injection H as <-. simpl. now rewrite Hs, Hc.
  - unfold update_markov_state in H. peel H rows Hrows. injection H as <-.
    simpl.
    assert (Hk : map ss_ticker rows = map ss_ticker (stock_states d)).
    { eapply traverse_keys; [|exact Hrows].
      intros r r' Hr'. now apply markov_set_ok in Hr'. }
    now rewrite (refs_keys ss_ticker _ _ _ Hk Hs), Hc.
  - peel H res Hres. injection H as <-.
    unfold start_pipeline_run in Hres. peel Hres rt Hrt. peel Hres d1 Hins.
    injection Hres as <-. simpl.
    unfold insert_run in Hins. peel Hins r' Hst. peel_ensure Hins Hpk.
    injection Hins as <-. simpl. now rewrite Hs, Hc.
  - unfold complete_pipeline_run in H. peel H rows Hrows. injection H as <-.
    simpl. now rewrite Hs, Hc.
  - unfold cleanup_old_data, delete_runs in H. injection H as <-. simpl.
    now rewrite Hs, Hc.
Qed.

Lemma reachable_references (trace : list (timestamptz * statement)) :
  db_references (run_trace trace empty_db) = true.
Proof.
  assert (H : forall d, db_references d = true ->
                        db_references (run_trace trace d) = true).
  { induction trace as [|e trace IH]; simpl; intros d Hd; [assumption|].
    apply IH. unfold step.
    destruct (exec (fst e) (snd e) d) as [d'|err] eqn:E; [|assumption].
    eapply exec_references; eassumption. }
  now apply H.
Qed.

(** X2: in every database reached from the empty schema, the ticker of
    every stock_states row and of every stock_scores row is the key of a
    tickers row, also after tickers were deleted (the delete cascades) or
    their keys were updated. *)
Theorem foreign_keys_always_hold (trace : list (timestamptz * statement)) :
  Forall (fun r => exists t, In t (tickers (run_trace trace empty_db)) /\
                             t_ticker t = ss_ticker r)
         (stock_states (run_trace trace empty_db)) /\
  Forall (fun r => exists t, In t (tickers (run_trace trace empty_db)) /\
                             t_ticker t = sc_ticker (cols r))
         (stock_scores (run_trace trace empty_db)).
Proof.
  pose proof (reachable_references trace) as H.
  unfold db_references, stock_states_fkey, stock_scores_fkey in H.
  apply andb_true_iff in H. destruct H as [Hs Hc].
  rewrite forallb_forall in Hs, Hc.
  split; apply Forall_forall; intros r Hr; apply ticker_exists_iff; auto.
Qed.

(** ** What an update leaves alone *)

Section TraverseFind.
Context {A : Type} (hit other : A -> bool) (g : A -> result A).
Hypothesis g_other : forall r r', hit r = true -> g r = Ok r' -> other r' = other r.

Let upd (r : A) : result A := if hit r then g r else Ok r.

Lemma traverse_length (l l' : list A) :
  traverse upd l = Ok l' -> List.length l' = List.length l.
Proof.
  revert l'. induction l as [|x l IH]; simpl; intros l' H.
  - injection H as <-. reflexivity.
  - apply bind_ok in H. destruct H as (y & Hy & H).
    apply bind_ok in H. destruct H as (ys & Hys & H).
    injection H as <-. simpl. now rewrite (IH _ Hys).
Qed.

(** The row a lookup finds after the update is the updated row the lookup
    found before. *)
Lemma traverse_find (l l' : list A) :
  traverse upd l = Ok l' ->
  match find other l with
  | Some r => exists r', upd r = Ok r' /\ find other l' = Some r'
  | None => find other l' = None
  end.
Proof.
  revert l'. induction l as [|x l IH]; simpl; intros l' H.
  - injection H as <-. reflexivity.
  - apply bind_ok in H. destruct H as (y & Hy & H).
    apply bind_ok in H. destruct H as (ys & Hys & H).
    injection H as <-. simpl.
    assert (Hoy : other y = other x).
    { unfold upd in Hy. destruct (hit x) eqn:Hx.
      - now apply g_other.
      - now injection Hy as <-. }
    rewrite Hoy. destruct (other x).
    + exists y. auto.
    + now apply IH.
Qed.
End TraverseFind.

Lemma markov_set_ticker now s reason (r r' : stock_state) :
  markov_set now s reason r = Ok r' -> ss_ticker r' = ss_ticker r.
Proof. intro H. now apply markov_set_ok in H. Qed.

(** X3: a transition that succeeds changes nothing but the state row of its
    ticker: the other three tables are as before, stock_states keeps its
    keys, and the row of every other ticker is the same. *)
Theorem update_markov_state_touches_one_row
  (now : timestamptz) (p_ticker p_new_state p_reason : option string)
  (d d' : db) :
  update_markov_state now p_ticker p_new_state p_reason d = Ok d' ->
  tickers d' = tickers d /\
  stock_scores d' = stock_scores d /\
  pipeline_runs d' = pipeline_runs d /\
  map ss_ticker (stock_states d') = map ss_ticker (stock_states d) /\
  forall k, p_ticker <> Some k -> find_state k d' = find_state k d.
Proof.
  unfold update_markov_state. intro H.
  apply bind_ok in H. destruct H as (rows & Hrows & H). injection H as <-.
  cbn [tickers stock_states stock_scores pipeline_runs with_states].
  repeat split.
  - eapply traverse_keys; [|exact Hrows].
    intros r r'. apply markov_set_ticker.
  - intros k Hk. unfold find_state.
    cbn [tickers stock_states stock_scores pipeline_runs with_states].
    pose proof (traverse_find
                  (fun r => text_is p_ticker (ss_ticker r))
                  (fun r => text_is (Some k) (ss_ticker r))
                  (markov_set now p_new_state p_reason)) as Hfind.
    specialize (Hfind ltac:(intros r r' _ Hr; simpl;
                             now rewrite (markov_set_ticker _ _ _ _ _ Hr))
                      _ _ Hrows).
    destruct (find (fun r => text_is (Some k) (ss_ticker r)) (stock_states d))
      as [r|] eqn:Hf; [|exact Hfind].
    destruct Hfind as (r' & Hupd & Hf'). rewrite Hf'.
    apply find_some in Hf. destruct Hf as [_ Hkr]. simpl in Hkr.
    apply String.eqb_eq in Hkr.
    assert (Hmiss : text_is p_ticker (ss_ticker r) = false).
    { destruct p_ticker as [p|]; [|reflexivity]. simpl.
      apply String.eqb_neq. intro Hp. apply Hk. congruence. }
    rewrite Hmiss in Hupd. congruence.
Qed.

Lemma update_markov_state_touches_one_row_witness :
  find_state "MSFT" Sample.hot_aapl = find_state "MSFT" Sample.base /\
  stock_scores Sample.hot_aapl = stock_scores Sample.base.
Proof.
  destruct (update_markov_state_touches_one_row
              (Sample.t0 + 5) (Some "AAPL") (Some "HOT")
              (Some "volume_spike_3x") Sample.base Sample.hot_aapl)
    as (_ & Hc & _ & _ & Hf).
  - vm_compute. reflexivity.
  - split; [apply Hf; discriminate | exact Hc].
Defined.

Lemma complete_set_kept now o (r r' : pipeline_run) :
  complete_set now o r = Ok r' ->
  id r' = id r /\ run_type r' = run_type r /\ started_at r' = started_at r /\
  retry_count r' = retry_count r.
Proof.
  unfold complete_set. intro H.
  apply bind_ok in H. destruct H as (u & _ & H).
  apply bind_ok in H. destruct H as (ns & _ & H).
  apply store_run_ok in H. destruct H as [-> _]. simpl. auto.
Qed.

(** X4: a completion that succeeds changes nothing but the run of its id:
    the other tables are as before, no run is added or removed, every other
    run is the same, and the completed run keeps its id, run_type,
    started_at and retry_count. *)
Theorem complete_pipeline_run_touches_one_run
  (now : timestamptz) (p_run_id : option Z) (o : run_outcome) (d d' : db) :
  complete_pipeline_run now p_run_id o d = Ok d' ->
  tickers d' = tickers d /\
  stock_states d' = stock_states d /\
  stock_scores d' = stock_scores d /\
  map id (pipeline_runs d') = map id (pipeline_runs d) /\
  (forall k, p_run_id <> Some k -> find_run k d' = find_run k d) /\
  (forall k r, find_run k d = Some r ->
     exists r', find_run k d' = Some r' /\
                id r' = id r /\ run_type r' = run_type r /\
                started_at r' = started_at r /\
                retry_count r' = retry_count r).
Proof.
  unfold complete_pipeline_run. intro H.
  apply bind_ok in H. destruct H as (rows & Hrows & H). injection H as <-.
  cbn [tickers stock_states stock_scores pipeline_runs with_runs].
  assert (Hfind : forall k,
    match find (fun r => int_is (Some k) (id r)) (pipeline_runs d) with
    | Some r =>
        exists r',
          (if int_is p_run_id (id r) then complete_set now o r else Ok r)
          = Ok r' /\
          find (fun r => int_is (Some k) (id r)) rows = Some r'
    | None => find (fun r => int_is (Some k) (id r)) rows = None
    end).
  { intro k.
    apply (traverse_find (fun r => int_is p_run_id (id r))
             (fun r => int_is (Some k) (id r)) (complete_set now o));
      [|exact Hrows].
    intros r r' _ Hr. simpl. apply complete_set_kept in Hr.
    destruct Hr as (-> & _). reflexivity. }
  repeat split.
  - eapply traverse_keys; [|exact Hrows].
    intros r r' Hr. now apply complete_set_kept in Hr.
  - intros k Hk. unfold find_run.
    cbn [tickers stock_states stock_scores pipeline_runs with_runs].
    specialize (Hfind k).
    destruct (find (fun r => int_is (Some k) (id r)) (pipeline_runs d))
      as [r|] eqn:Hf; [|exact Hfind].
    destruct Hfind as (r' & Hupd & Hf'). rewrite Hf'.
    apply find_some in Hf. destruct Hf as [_ Hkr]. simpl in Hkr.
    apply Z.eqb_eq in Hkr.
    assert (Hmiss : int_is p_run_id (id r) = false).
    { destruct p_run_id as [p|]; [|reflexivity]. simpl.
      apply Z.eqb_neq. intro Hp. apply Hk. congruence. }
    rewrite Hmiss in Hupd. congruence.
  - intros k r Hf. unfold find_run in *.
    cbn [tickers stock_states stock_scores pipeline_runs with_runs].
    specialize (Hfind k).
    rewrite Hf in Hfind. destruct Hfind as (r' & Hupd & Hf').
    exists r'. split; [exact Hf'|].
    destruct (int_is p_run_id (id r)).
    + now apply complete_set_kept in Hupd.
    + injection Hupd as <-. auto.
Qed.

Lemma complete_pipeline_run_touches_one_run_witness :
  stock_states Sample.finished = stock_states Sample.base /\
  map id (pipeline_runs Sample.finished) = [1].
Proof.
  destruct (complete_pipeline_run_touches_one_run
              (Sample.t0 + 10000000) (Some 1) Sample.all_good
              Sample.base Sample.finished) as (_ & Hs & _ & Hid & _).
  - vm_compute. reflexivity.
  - split; [exact Hs|]. rewrite Hid. vm_compute. reflexivity.
Defined.

(** ** Transitions and the due list *)

Lemma pkey_find_unique {A K : Type} (eqb : K -> K -> bool) (key : A -> K)
  (eqb_eq : forall a b, eqb a b = true <-> a = b)
  (k : K) (l : list A) (r x : A) :
  distinct eqb (map key l) = true ->
  find (fun y => eqb k (key y)) l = Some r ->
  In x l -> key x = k -> x = r.
Proof.
  induction l as [|y l IH]; simpl; intros Hd Hf Hin Hk; [contradiction|].
  apply andb_true_iff in Hd. destruct Hd as [Hy Hl].
  destruct (eqb k (key y)) eqn:E.
  - injection Hf as <-. destruct Hin as [->|Hin]; [reflexivity|].
    apply eqb_eq in E. apply negb_true_iff in Hy.
    assert (existsb (eqb (key y)) (map key l) = true).
    { apply existsb_exists. exists (key x). split; [now apply in_map|].
      apply eqb_eq. congruence. }
    congruence.
  - destruct Hin as [->|Hin]; [|now apply IH].
    assert (eqb k (key x) = true) by (apply eqb_eq; congruence).
    congruence.
Qed.

Lemma in_due_list now (d : db) (k : string) :
  In k (map (fun x => fst (fst x)) (get_tickers_due_for_update now d)) <->
  exists ss t, In (ss, t) (due_rows now d) /\ ss_ticker ss = k.
Proof.
  unfold get_tickers_due_for_update. rewrite map_map. rewrite in_map_iff.
  split.
  - intros ([ss t] & Hk & Hin). exists ss, t. auto.
  - intros (ss & t & Hin & Hk). exists (ss, t). auto.
Qed.

(** X5: after a transition of an instrument to one of the four states at
    time now, the due list at time t holds the instrument exactly when its
    ticker row is active and t has reached now plus the interval of the
    new state. *)
Theorem transition_defers_instrument
  (now t : timestamptz) (k s : string) (reason : option string)
  (d : db) (r : stock_state) :
  db_constraints d = true ->
  find_state k d = Some r ->
  valid_state s = true ->
  (s = "HOT" -> consecutive_hot r < 32767) ->
  exists d',
    update_markov_state now (Some k) (Some s) reason d = Ok d' /\
    (In k (map (fun x => fst (fst x)) (get_tickers_due_for_update t d')) <->
     (exists tk, In tk (tickers d) /\ t_ticker tk = k /\ is_active tk = true) /\
     now + minutes (interval_minutes (Some s)) <= t).
Proof.
  intros Hd Hf Hs Hhot.
  destruct (update_markov_state_hit now k s reason d r Hd Hf Hs Hhot)
    as (d' & r' & Hup & Hd' & Hf' & Hset).
  destruct (find_state_ok _ _ _ Hd Hf) as [Hr Hk].
  rewrite (markov_set_accepts now s reason r Hs Hr Hhot) in Hset.
  exists d'. split; [exact Hup|].
  destruct (update_markov_state_touches_one_row _ _ _ _ _ _ Hup)
    as (Ht & _ & _ & _ & _).
  assert (Hdue : next_update_due r'
                 = now + minutes (interval_minutes (Some s)))
    by (injection Hset as <-; reflexivity).
  assert (Hkey : ss_ticker r' = k) by (injection Hset as <-; exact Hk).
  pose proof Hd' as Hd0. apply db_constraints_iff in Hd0.
  destruct Hd0 as [_ (_ & Ps & _)].
  rewrite in_due_list. split.
  - intros (ss & tk & Hin & Hss). apply in_due_rows in Hin.
    destruct Hin as (Hin & Htk & Hj & Ha & Hle).
    assert (ss = r').
    { eapply (pkey_find_unique String.eqb ss_ticker String.eqb_eq k);
        [exact Ps|exact Hf'|exact Hin|exact Hss]. }
    subst ss. split; [|lia].
    exists tk. rewrite <- Ht. split; [exact Htk|]. split; [congruence|exact Ha].
  - intros [(tk & Htk & Hj & Ha) Hle].
    exists r', tk. split; [|exact Hkey].
    apply in_due_rows. apply find_some in Hf'. destruct Hf' as [Hin _].
    rewrite Ht. repeat split; try assumption; [congruence | lia].
Qed.

Lemma transition_defers_instrument_witness :
  exists d',
    update_markov_state (Sample.t0 + 5) (Some "AAPL") (Some "WARM") None
                        Sample.base = Ok d' /\
    ~ In "AAPL" (map (fun x => fst (fst x))
                     (get_tickers_due_for_update
                        (Sample.t0 + 5 + minutes 119) d')).
Proof.
  destruct (transition_defers_instrument
              (Sample.t0 + 5) (Sample.t0 + 5 + minutes 119) "AAPL" "WARM" None
              Sample.base (Sample.default_state "AAPL" Sample.t0))
    as (d' & Hup & Hiff).
  - vm_compute. reflexivity.
  - vm_compute. reflexivity.
  - vm_compute. reflexivity.
  - discriminate.
  - exists d'. split; [exact Hup|]. intro Hin. apply Hiff in Hin.
    destruct Hin as [_ Hle]. vm_compute in Hle. apply Hle. reflexivity.
Defined.

(** X6: as long as the tables are not written, an instrument that is due
    stays due: the due list at a later time holds every entry of the due
    list at an earlier time. *)
Theorem due_stays_due (t t' : timestamptz) (d : db)
  (x : string * string * timestamptz) :
  t <= t' ->
  In x (get_tickers_due_for_update t d) ->
  In x (get_tickers_due_for_update t' d).
Proof.
  unfold get_tickers_due_for_update. intros Hle Hin.
  apply in_map_iff in Hin. destruct Hin as ([ss tk] & Hx & Hin).
  apply in_map_iff. exists (ss, tk). split; [exact Hx|].
  apply in_due_rows in Hin. apply in_due_rows.
  destruct Hin as (H1 & H2 & H3 & H4 & H5). repeat split; try assumption. lia.
Qed.

Lemma due_stays_due_witness :
  In ("AAPL", "COLD", Sample.t0)
     (get_tickers_due_for_update (Sample.t0 + days 1) Sample.base).
Proof.
  apply (due_stays_due Sample.t0 (Sample.t0 + days 1) Sample.base).
  - vm_compute. discriminate.
  - vm_compute. left. reflexivity.
Defined.

(** ** Pipeline runs: when the functions refuse *)

Lemma duration_fits (n : Z) :
  numeric_ok 8 (round_div n 10000) = true <-> Z.abs n < 999999995000.
Proof.
  unfold numeric_ok, round_div. rewrite Z.ltb_lt.
  change (10 ^ 8) with 100000000. change (2 * 10000) with 20000.
  assert (Hq : 0 <= (2 * Z.abs n + 10000) / 20000)
    by (apply Z.div_pos; lia).
  assert (Hup : (2 * Z.abs n + 10000) / 20000 < 100000000 <->
                Z.abs n < 999999995000).
  { split; intro H.
    - destruct (Z.lt_ge_cases (Z.abs n) 999999995000) as [|Hge]; [assumption|].
      assert (100000000 <= (2 * Z.abs n + 10000) / 20000)
        by (apply Z.div_le_lower_bound; lia).
      lia.
    - apply Z.div_lt_upper_bound; lia. }
  destruct (Z.lt_trichotomy n 0) as [Hn|[Hn|Hn]].
  - rewrite (Z.sgn_neg n Hn). rewrite <- Hup. lia.
  - subst n. simpl. lia.
  - rewrite (Z.sgn_pos n Hn). rewrite <- Hup. lia.
Qed.

(** X7: complete_pipeline_run on an existing run succeeds exactly when the
    time between started_at and now, in either direction, is below
    999999.995 seconds (the duration then fits NUMERIC(8,2)) and the status given is one of running, success,
    partial, failed; otherwise it raises an error. *)
Theorem complete_pipeline_run_succeeds_iff
  (now : timestamptz) (k : Z) (o : run_outcome) (d : db) (r : pipeline_run) :
  db_constraints d = true ->
  find_run k d = Some r ->
  ((exists d', complete_pipeline_run now (Some k) o d = Ok d') <->
   Z.abs (now - started_at r) < 999999995000 /\
   exists st, p_status o = Some st /\ valid_status st = true) /\
  ((exists d', complete_pipeline_run now (Some k) o d = Ok d') \/
   (exists e, complete_pipeline_run now (Some k) o d = Err e)).
Proof.
  intros Hd Hf.
  assert (Hfail : forall e, complete_set now o r = Err e ->
                            complete_pipeline_run now (Some k) o d = Err e).
  { intros e He. unfold complete_pipeline_run.
    rewrite (traverse_hit_err (fun x => int_is (Some k) (id x))
               (complete_set now o) _ r e Hf He). reflexivity. }
  pose proof Hd as Hd0. apply db_constraints_iff in Hd0.
  destruct Hd0 as [(_ & _ & _ & Hr) _].
  pose proof Hf as Hin. apply find_some in Hin. destruct Hin as [Hin _].
  rewrite forallb_forall in Hr. specialize (Hr r Hin).
  unfold run_ok in Hr. apply andb_true_iff in Hr. destruct Hr as [Hr _].
  apply andb_true_iff in Hr. destruct Hr as [_ Hretry].
  pose proof (duration_fits (now - started_at r)) as Hfits.
  fold (epoch_hundredths now (started_at r)) in Hfits.
  destruct (numeric_ok 8 (epoch_hundredths now (started_at r))) eqn:Hdur.
  - destruct (p_status o) as [st|] eqn:Ho.
    + destruct (valid_status st) eqn:Hst.
      * destruct (complete_pipeline_run_hit now k o st d r Hd Hf Ho Hst Hdur)
          as (d' & r' & Hc & _).
        split; [|left; eauto]. split.
        -- intros _. split; [now apply Hfits|]. eauto.
        -- intros _. eauto.
      * assert (He : complete_set now o r = Err (check_violation "valid_status")).
        { unfold complete_set. rewrite Hdur, Ho. simpl.
          unfold store_run. simpl. rewrite Hdur, Hretry, Hst. reflexivity. }
        apply Hfail in He. split; [|right; eauto]. split.
        -- intros (d' & Hc). congruence.
        -- intros (_ & st' & Hs' & Hv). congruence.
    + assert (He : complete_set now o r = Err (not_null_violation "status")).
      { unfold complete_set. rewrite Hdur, Ho. reflexivity. }
      apply Hfail in He. split; [|right; eauto]. split.
      * intros (d' & Hc). congruence.
      * intros (_ & st' & Hs' & _). discriminate.
  - assert (He : complete_set now o r
                 = Err (numeric_value_out_of_range "duration_seconds")).
    { unfold complete_set. rewrite Hdur. reflexivity. }
    apply Hfail in He. split; [|right; eauto]. split.
    + intros (d' & Hc). congruence.
    + intros (Hlt & _). apply Hfits in Hlt. discriminate.
Qed.

Lemma complete_pipeline_run_succeeds_iff_witness :
  ~ exists d', complete_pipeline_run (Sample.t0 + days 12) (Some 1)
                 Sample.all_good Sample.base = Ok d'.
Proof.
  destruct (complete_pipeline_run_succeeds_iff
              (Sample.t0 + days 12) 1 Sample.all_good Sample.base
              (mk_pipeline_run 1 "manual" Sample.t0 None None (Some 0) (Some 0)
                 (Some 0) (Some 0) (Some 0) (Some 0) (Some 0) "running"
                 None None (Some 0))) as [Hiff _].
  - vm_compute. reflexivity.
  - vm_compute. reflexivity.
  - intro H. apply Hiff in H. destruct H as [Hlt _].
    vm_compute in Hlt. discriminate.
Defined.

Lemma distinct_Z_snoc_inv (l : list Z) (k : Z) :
  distinct Z.eqb (l ++ [k]) = true -> existsb (Z.eqb k) l = false.
Proof.
  induction l as [|x l IH]; simpl; [reflexivity|].
  intro H. apply andb_true_iff in H. destruct H as [Hx Hl].
  rewrite (IH Hl), orb_false_r.
  apply negb_true_iff in Hx. rewrite existsb_app in Hx.
  apply orb_false_iff in Hx. destruct Hx as [_ Hx]. simpl in Hx.
  rewrite orb_false_r in Hx. now rewrite Z.eqb_sym.
Qed.

(** X8: start_pipeline_run succeeds exactly when the run type is not NULL
    and the new id is not the id of a stored run; it then returns that id
    and adds one row to the stored runs, which it leaves as they are,
    like the other tables.  A NULL run type and an id that is taken raise
    an error. *)
Theorem start_pipeline_run_appends_one_run
  (now : timestamptz) (new_id : Z) (p_run_type : option string) (d : db) :
  db_constraints d = true ->
  (forall res,
      start_pipeline_run now new_id p_run_type d = Ok res <->
      exists rt, p_run_type = Some rt /\
                 has_run_row (Some new_id) d = false /\
                 res = (new_id,
                        with_runs d
                          (pipeline_runs d ++
                           [mk_pipeline_run new_id rt now None None (Some 0)
                              (Some 0) (Some 0) (Some 0) (Some 0) (Some 0)
                              (Some 0) "running" None None (Some 0)]))) /\
  (p_run_type = None ->
   start_pipeline_run now new_id p_run_type d
   = Err (not_null_violation "run_type")) /\
  (p_run_type <> None -> has_run_row (Some new_id) d = true ->
   start_pipeline_run now new_id p_run_type d
   = Err (unique_violation "pipeline_runs_pkey")).
Proof.
  intro Hd. apply db_constraints_iff in Hd.
  destruct Hd as [_ (_ & _ & _ & Pr)].
  assert (Hpk : forall r, id r = new_id ->
            pipeline_runs_pkey (pipeline_runs d ++ [r])
            = negb (has_run_row (Some new_id) d)).
  { intros r Hr. unfold pipeline_runs_pkey, has_run_row.
    rewrite <- has_run_row_ids. rewrite map_app. cbn [map]. rewrite Hr.
    destruct (existsb (Z.eqb new_id) (map id (pipeline_runs d))) eqn:E.
    - destruct (distinct Z.eqb (map id (pipeline_runs d) ++ [new_id])) eqn:E2;
        [|reflexivity].
      apply distinct_Z_snoc_inv in E2. congruence.
    - now apply distinct_Z_snoc. }
  destruct p_run_type as [rt|]; unfold start_pipeline_run, insert_run; simpl.
  - rewrite Hpk by reflexivity.
    destruct (has_run_row (Some new_id) d); simpl.
    + split; [|split; [discriminate | reflexivity]].
      intros res. split; [discriminate|].
      intros (rt' & _ & Habs & _). discriminate.
    + split; [|split; [discriminate | discriminate]].
      intros res. split.
      * intro H. injection H as <-. exists rt. auto.
      * intros (rt' & Hrt & _ & ->). injection Hrt as <-. reflexivity.
  - split; [|split; [reflexivity | congruence]].
    intros res. split; [discriminate|].
    intros (rt' & Habs & _). discriminate.
Qed.

Lemma start_pipeline_run_appends_one_run_witness :
  start_pipeline_run (Sample.t0 + 1) 1 (Some "manual") Sample.base
  = Err (unique_violation "pipeline_runs_pkey").
Proof.
  destruct (start_pipeline_run_appends_one_run
              (Sample.t0 + 1) 1 (Some "manual") Sample.base) as (_ & _ & H).
  - vm_compute. reflexivity.
  - apply H; [discriminate | vm_compute; reflexivity].
Defined.

(** ** Retention: cleanup_old_data *)

Lemma filter_absorb {A : Type} (f g : A -> bool) (l : list A) :
  (forall x, g x = true -> f x = true) ->
  filter g (filter f l) = filter g l.
Proof.
  intro H. induction l as [|x l IH]; simpl; [reflexivity|].
  destruct (f x) eqn:Ef; simpl.
  - now rewrite IH.
  - destruct (g x) eqn:Eg; [|exact IH].
    apply H in Eg. congruence.
Qed.

(** In a session in UTC the runs that [cleanup_old_data_in] leaves are those
    of [cleanup_old_data]. *)
Lemma cleanup_old_data_in_utc (now : timestamptz)
  (history : list score_snapshot) (d : db) :
  bind (cleanup_old_data_in utc_minus_days now history d)
       (fun res => Ok (snd res))
  = cleanup_old_data now d.
Proof. reflexivity. Qed.

(** In a session in UTC a later cleanup has later cut-offs. *)
Lemma utc_minus_days_mono (n : Z) (t1 t2 : timestamptz) :
  t1 <= t2 -> utc_minus_days n t1 <= utc_minus_days n t2.
Proof. unfold utc_minus_days. lia. Qed.

(** X9: cleanup_old_data never fails, writes only score_history and
    pipeline_runs, and leaves exactly the history rows recorded and the runs
    started not before the two cut-offs (now minus 90 and 30 days, as the
    time zone of the session counts them), whatever the status of a run; a
    second cleanup whose cut-offs are not earlier than those of the first,
    such as one at the same time, leaves what it would have left alone. *)
Theorem cleanup_old_data_absorbs
  (minus_days : Z -> timestamptz -> timestamptz) (t1 t2 : timestamptz)
  (history : list score_snapshot) (d : db) :
  minus_days 90 t1 <= minus_days 90 t2 ->
  minus_days 30 t1 <= minus_days 30 t2 ->
  exists h1 d1 h2 d2,
    cleanup_old_data_in minus_days t1 history d = Ok (h1, d1) /\
    cleanup_old_data_in minus_days t2 h1 d1 = Ok (h2, d2) /\
    cleanup_old_data_in minus_days t2 history d = Ok (h2, d2) /\
    (forall h, In h h2 <->
               In h history /\ minus_days 90 t2 <= recorded_at h) /\
    (forall r, In r (pipeline_runs d2) <->
               In r (pipeline_runs d) /\ minus_days 30 t2 <= started_at r) /\
    tickers d2 = tickers d /\ stock_states d2 = stock_states d /\
    stock_scores d2 = stock_scores d.
Proof.
  intros H90 H30.
  unfold cleanup_old_data_in, delete_runs, delete_where.
  cbn [bind with_runs tickers stock_states stock_scores pipeline_runs].
  do 4 eexists. split; [reflexivity|].
  cbn [bind with_runs tickers stock_states stock_scores pipeline_runs].
  split; [reflexivity|]. split; [|split; [|split]].
  - unfold with_runs. cbn [tickers stock_states stock_scores pipeline_runs].
    rewrite (filter_absorb _ _ history), (filter_absorb _ _ (pipeline_runs d));
      [reflexivity| |];
      intros x Hx; apply negb_true_iff in Hx; apply negb_true_iff;
      apply Z.ltb_ge in Hx; apply Z.ltb_ge; lia.
  - intro h. rewrite !filter_In, !negb_true_iff, !Z.ltb_ge. split.
    + intros ((Hin & _) & Hle). auto.
    + intros (Hin & Hle). repeat split; [exact Hin | lia | exact Hle].
  - intro r. unfold with_runs. cbn [pipeline_runs].
    rewrite !filter_In, !negb_true_iff, !Z.ltb_ge. split.
    + intros ((Hin & _) & Hle). auto.
    + intros (Hin & Hle). repeat split; [exact Hin | lia | exact Hle].
  - repeat split.
Qed.

Lemma cleanup_old_data_absorbs_witness :
  exists h2 d2,
    cleanup_old_data_in utc_minus_days (Sample.t0 + days 100)
                        SampleMore.old_history Sample.old_runs
    = Ok (h2, d2) /\
    map sh_id h2 = [2] /\ pipeline_runs d2 = [].
Proof.
  destruct (cleanup_old_data_absorbs utc_minus_days
              (Sample.t0 + days 50) (Sample.t0 + days 100)
              SampleMore.old_history Sample.old_runs)
    as (h1 & d1 & h2 & d2 & _ & _ & H & _).
  - vm_compute. discriminate.
  - vm_compute. discriminate.
  - exists h2, d2. split; [exact H|].
    vm_compute in H. injection H as <- <-. split; reflexivity.
Defined.

(** ** The view system_health *)

Lemma count_where_cons {A : Type} (wh : A -> bool) (x : A) (l : list A) :
  count_where wh (x :: l) = (if wh x then 1 else 0) + count_where wh l.
Proof.
  unfold count_where. cbn [filter]. destruct (wh x); cbn [List.length]; lia.
Qed.

Lemma count_where_bounds {A : Type} (wh : A -> bool) (l : list A) :
  0 <= count_where wh l <= Z.of_nat (List.length l).
Proof.
  induction l as [|x l IH]; [unfold count_where; cbn; lia|].
  rewrite count_where_cons. cbn [List.length]. destruct (wh x); lia.
Qed.

Lemma count_where_le {A : Type} (f g : A -> bool) (l : list A) :
  (forall x, f x = true -> g x = true) ->
  count_where f l <= count_where g l.
Proof.
  intro H. induction l as [|x l IH]; [unfold count_where; cbn; lia|].
  rewrite !count_where_cons. specialize (H x).
  destruct (f x), (g x); lia.
Qed.

Lemma state_counts_partition (states : list stock_state) :
  forallb state_ok states = true ->
  count_where (fun r => String.eqb (current_state r) "HOT") states +
  count_where (fun r => String.eqb (current_state r) "WARM") states +
  count_where (fun r => String.eqb (current_state r) "COLD") states +
  count_where (fun r => String.eqb (current_state r) "FROZEN") states
  = Z.of_nat (List.length states).
Proof.
  induction states as [|r states IH]; [reflexivity|].
  cbn [forallb]. intro H. apply andb_true_iff in H. destruct H as [Hr Hl].
  specialize (IH Hl). rewrite !count_where_cons. cbn [List.length].
  unfold state_ok in Hr. apply andb_true_iff in Hr. destruct Hr as [_ Hv].
  apply valid_state_cases in Hv.
  destruct Hv as [-> | [-> | [-> | ->]]]; cbn [String.eqb Ascii.eqb Bool.eqb];
    lia.
Qed.

(** X10: in every database reached from the empty schema, the four state
    counters of system_health add up to the number of stock_states rows
    (no instrument is left out or counted twice), the scores of the last
    hour are among those of the last 24 hours, and the active tickers are
    not more than the tickers. *)
Theorem system_health_counts
  (now : timestamptz) (trace : list (timestamptz * statement)) :
  let d := run_trace trace empty_db in
  let h := system_health now d in
  hot_count h + warm_count h + cold_count h + frozen_count h
  = Z.of_nat (List.length (stock_states d)) /\
  0 <= hot_count h /\ 0 <= warm_count h /\ 0 <= cold_count h /\
  0 <= frozen_count h /\
  0 <= scored_last_hour h <= scored_last_24h h /\
  scored_last_24h h <= Z.of_nat (List.length (stock_scores d)) /\
  0 <= total_active_tickers h <= Z.of_nat (List.length (tickers d)).
Proof.
  intros d h. subst h. cbn [system_health hot_count warm_count cold_count
    frozen_count scored_last_hour scored_last_24h total_active_tickers].
  pose proof (reachable_constraints trace) as Hd. fold d in Hd.
  apply db_constraints_iff in Hd. destruct Hd as [(_ & Hs & _) _].
  split; [now apply state_counts_partition|].
  repeat split; try apply count_where_bounds.
  apply count_where_le. intros x Hx.
  apply Z.ltb_lt in Hx. apply Z.ltb_lt. unfold hours in *. lia.
Qed.

Lemma started_desc_total (a b : pipeline_run) :
  started_desc_leb a b = true \/ started_desc_leb b a = true.
Proof. unfold started_desc_leb. rewrite !Z.leb_le. lia. Qed.

Lemma started_desc_trans (a b c : pipeline_run) :
  started_desc_leb a b = true -> started_desc_leb b c = true ->
  started_desc_leb a c = true.
Proof. unfold started_desc_leb. rewrite !Z.leb_le. lia. Qed.

Lemma sql_sum_none (values : list (option Z)) :
  sql_sum values = None <-> forall v, In v values -> v = None.
Proof.
  unfold sql_sum.
  assert (H : forall acc,
    fold_left
      (fun acc v =>
         match v, acc with
         | None, _ => acc
         | Some x, None => Some x
         | Some x, Some a => Some (a + x)
         end) values acc = None <->
    acc = None /\ forall v, In v values -> v = None).
  { induction values as [|v values IH]; intro acc; simpl.
    - split; [intro H; split; [exact H|contradiction] | tauto].
    - rewrite IH. destruct v as [x|].
      + split.
        * intros [Habs _]. destruct acc; discriminate.
        * intros [_ H]. specialize (H (Some x) (or_introl eq_refl)).
          discriminate.
      + split.
        * intros [Ha H]. split; [exact Ha|]. intros v [<-|Hv]; auto.
        * intros [Ha H]. split; [exact Ha|]. auto. }
  rewrite H. tauto.
Qed.

(** X11: system_health reports, as the last run, a stored run whose
    started_at no other run exceeds, with its status, and NULLs when there
    is no run; api_calls_today is NULL exactly when no run started in the
    last 24 hours carries a call count. *)
Theorem system_health_last_run (now : timestamptz) (d : db) :
  let h := system_health now d in
  ((pipeline_runs d = [] /\ last_run_status h = None /\ last_run_time h = None)
   \/
   (exists r, In r (pipeline_runs d) /\
              last_run_status h = Some (status r) /\
              last_run_time h = Some (started_at r) /\
              forall x, In x (pipeline_runs d) -> started_at x <= started_at r))
  /\
  (api_calls_today h = None <->
   forall r, In r (pipeline_runs d) -> now - hours 24 < started_at r ->
             api_calls_made r = None).
Proof.
  intro h. subst h.
  cbn [system_health last_run_status last_run_time api_calls_today].
  split.
  - pose proof (order_by_perm started_desc_leb (pipeline_runs d)) as Hperm.
    pose proof (order_by_sorted started_desc_leb started_desc_total
                  started_desc_trans (pipeline_runs d)) as Hsorted.
    destruct (order_by started_desc_leb (pipeline_runs d)) as [|r rest] eqn:E.
    + left. apply Permutation_sym, Permutation_nil in Hperm. auto.
    + right. exists r. cbn [hd_error option_map].
      split; [|split; [reflexivity|split; [reflexivity|]]].
      * eapply Permutation_in; [apply Permutation_sym; exact Hperm|].
        left. reflexivity.
      * intros x Hx. eapply Permutation_in in Hx; [|exact Hperm].
        apply StronglySorted_inv in Hsorted. destruct Hsorted as [_ Hall].
        destruct Hx as [<-|Hx]; [lia|].
        rewrite Forall_forall in Hall. specialize (Hall x Hx).
        unfold started_desc_leb in Hall. now apply Z.leb_le in Hall.
  - rewrite sql_sum_none. split.
    + intros H r Hin Hrecent. apply H. apply in_map_iff. exists r.
      split; [reflexivity|]. apply filter_In. split; [exact Hin|].
      now apply Z.ltb_lt.
    + intros H v Hv. apply in_map_iff in Hv. destruct Hv as (r & <- & Hr).
      apply filter_In in Hr. destruct Hr as [Hin Hrecent].
      apply H; [exact Hin|]. now apply Z.ltb_lt.
Qed.

(** ** The view dashboard_stocks *)

Lemma find_filter {A : Type} (f : A -> bool) (l : list A) :
  find f l = hd_error (filter f l).
Proof.
  induction l as [|x l IH]; simpl; [reflexivity|].
  destruct (f x); [reflexivity | exact IH].
Qed.

(** With at most one match for every left row, a [LEFT JOIN] is a lookup. *)
Lemma left_join_lookup {A B : Type} (on : A -> B -> bool) (l : list A)
  (r : list B) :
  (forall a, (List.length (filter (on a) r) <= 1)%nat) ->
  left_join on l r = map (fun a => (a, find (on a) r)) l.
Proof.
  intro Hone. unfold left_join.
  induction l as [|a l IH]; cbn [flat_map]; [reflexivity|].
  rewrite IH. cbn [map]. rewrite find_filter. specialize (Hone a).
  destruct (filter (on a) r) as [|b [|c rest]]; cbn in *;
    [reflexivity | reflexivity | lia].
Qed.

Lemma filter_map_comm {A B : Type} (f : A -> B) (p : B -> bool) (l : list A) :
  filter p (map f l) = map f (filter (fun a => p (f a)) l).
Proof.
  induction l as [|a l IH]; simpl; [reflexivity|].
  destruct (p (f a)); simpl; now rewrite IH.
Qed.

(** The view, as one lookup in each of the three tables for every active
    ticker. *)
Lemma dashboard_from_lookup (raw : list raw_data) (d : db) :
  db_constraints d = true -> stock_raw_data_pkey raw = true ->
  dashboard_from raw d
  = map (fun t =>
           (((t,
              find (fun s => String.eqb (t_ticker t) (sc_ticker (cols s)))
                   (stock_scores d)),
             find (fun r => String.eqb (t_ticker t) (rd_ticker r)) raw),
            find (fun st => String.eqb (t_ticker t) (ss_ticker st))
                 (stock_states d)))
        (filter is_active (tickers d)).
Proof.
  intros Hd Hraw. apply db_constraints_iff in Hd.
  destruct Hd as [_ (_ & Ps & Pc & _)].
  unfold dashboard_from.
  rewrite (left_join_lookup
             (fun t s => String.eqb (t_ticker t) (sc_ticker (cols s))))
    by (intro t;
        exact (distinct_one_hit String.eqb (fun s => sc_ticker (cols s))
                 String.eqb_eq (t_ticker t) _ Pc)).
  rewrite (left_join_lookup
             (fun (ts : ticker * option stock_score) r =>
                String.eqb (t_ticker (fst ts)) (rd_ticker r)))
    by (intro ts;
        exact (distinct_one_hit String.eqb rd_ticker
                 String.eqb_eq (t_ticker (fst ts)) _ Hraw)).
  rewrite (left_join_lookup
             (fun (ts : (ticker * option stock_score) * option raw_data) st =>
                String.eqb (t_ticker (fst (fst ts))) (ss_ticker st)))
    by (intro ts;
        exact (distinct_one_hit String.eqb ss_ticker
                 String.eqb_eq (t_ticker (fst (fst ts))) _ Ps)).
  rewrite !map_map. rewrite filter_map_comm. reflexivity.
Qed.

(** X12: with the primary keys in place, dashboard_stocks shows every
    active ticker exactly once and no inactive one, whether or not the
    ticker has a score, raw-data or state row; the score, state and raw
    columns of a row are those of the row of its ticker in stock_scores,
    stock_states and stock_raw_data, and NULL when there is none.  The last
    part gives each of the forty columns of the view. *)
Theorem dashboard_stocks_one_row_per_active_ticker
  (raw : list raw_data) (d : db) :
  db_constraints d = true ->
  stock_raw_data_pkey raw = true ->
  map v_ticker (dashboard_stocks raw d)
  = map t_ticker (filter is_active (tickers d)) /\
  NoDup (map v_ticker (dashboard_stocks raw d)) /\
  (forall row, In row (dashboard_stocks raw d) ->
    v_total_score row
    = option_map total_score
        (find (fun s => String.eqb (v_ticker row) (sc_ticker (cols s)))
              (stock_scores d)) /\
    v_is_triple_crown row
    = option_map is_triple_crown
        (find (fun s => String.eqb (v_ticker row) (sc_ticker (cols s)))
              (stock_scores d)) /\
    v_markov_state row
    = option_map current_state (find_state (v_ticker row) d) /\
    v_collected_at row
    = option_map collected_at
        (find (fun r => String.eqb (v_ticker row) (rd_ticker r)) raw)) /\
  dashboard_stocks raw d
  = map (fun t =>
           let s := find (fun s => String.eqb (t_ticker t)
                                              (sc_ticker (cols s)))
                         (stock_scores d) in
           let r := find (fun r => String.eqb (t_ticker t) (rd_ticker r))
                         raw in
           let st := find_state (t_ticker t) d in
           {| v_ticker := t_ticker t;
              v_company_name := company_name t;
              v_sector := sector t;
              v_industry := industry t;
              v_tier := tier t;
              v_price := ncol price r;
              v_price_change_pct := ncol price_change_pct r;
              v_volume := ncol volume r;
              v_volume_ratio := ncol volume_ratio r;
              v_market_cap := ncol rd_market_cap r;
              v_moat_score := option_map (fun x => moat_score (cols x)) s;
              v_growth_score := option_map (fun x => growth_score (cols x)) s;
              v_balance_score :=
                option_map (fun x => balance_score (cols x)) s;
              v_valuation_score :=
                option_map (fun x => valuation_score (cols x)) s;
              v_sentiment_score :=
                option_map (fun x => sentiment_score (cols x)) s;
              v_dividend_score :=
                option_map (fun x => dividend_score (cols x)) s;
              v_total_score := option_map total_score s;
              v_mfses_short := option_map (fun x => mfses_short (cols x)) s;
              v_mfses_mid := option_map (fun x => mfses_mid (cols x)) s;
              v_mfses_long := option_map (fun x => mfses_long (cols x)) s;
              v_graham_value := ncol (fun x => graham_value (cols x)) s;
              v_graham_upside_pct :=
                ncol (fun x => graham_upside_pct (cols x)) s;
              v_is_triple_crown := option_map is_triple_crown s;
              v_is_value_trap := option_map is_value_trap s;
              v_is_expensive_growth := option_map is_expensive_growth s;
              v_annual_dividend := ncol annual_dividend r;
              v_dividend_yield := ncol dividend_yield r;
              v_payout_ratio := ncol payout_ratio r;
              v_dividend_growth_5yr := ncol dividend_growth_5yr r;
              v_consecutive_increases := ncol consecutive_increases r;
              v_ex_dividend_date := ncol ex_dividend_date r;
              v_eps_current := ncol eps_current r;
              v_eps_growth_rate := ncol eps_growth_rate r;
              v_debt_to_equity := ncol debt_to_equity r;
              v_markov_state := option_map current_state st;
              v_markov_last_updated := option_map last_updated st;
              v_promotion_reason := ncol promotion_reason st;
              v_data_quality_score := ncol data_quality_score r;
              v_scored_at := option_map (fun x => scored_at (cols x)) s;
              v_collected_at := option_map collected_at r |})
        (filter is_active (tickers d)).
Proof.
  intros Hd Hraw. unfold dashboard_stocks.
  rewrite (dashboard_from_lookup raw d Hd Hraw). rewrite !map_map.
  split; [reflexivity|]. split; [|split; [|reflexivity]].
  - apply db_constraints_iff in Hd. destruct Hd as [_ (Pt & _)].
    apply (distinct_NoDup String.eqb String.eqb_eq).
    now apply distinct_filter.
  - intros row Hin. apply in_map_iff in Hin. destruct Hin as (t & <- & _).
    cbn [dashboard_select v_ticker v_total_score v_is_triple_crown
         v_markov_state v_collected_at fst snd col].
    repeat split.
Qed.

Lemma dashboard_stocks_one_row_per_active_ticker_witness :
  map v_ticker (dashboard_stocks [SampleMore.raw_aapl] Sample.base)
  = ["AAPL"; "MSFT"].
Proof.
  destruct (dashboard_stocks_one_row_per_active_ticker
              [SampleMore.raw_aapl] Sample.base) as (H & _).
  - vm_compute. reflexivity.
  - vm_compute. reflexivity.
  - rewrite H. vm_compute. reflexivity.
Defined.

(** * Further properties of the Polygon call limiter *)

Module PolygonRuns.
Import Polygon.

Lemma enter_waits (s : limiter) :
  clock s - lastCall s < 150 ->
  polyFetch_enter s
  = mk_limiter (clock s) (lastCall s) (timers s ++ [lastCall s + 150])
               (fetches s).
Proof.
  intro H. unfold polyFetch_enter. cbv zeta.
  assert (Hw : Z.max 0 (150 - (clock s - lastCall s))
               = 150 - (clock s - lastCall s)) by lia.
  rewrite Hw.
  assert (Hpos : (0 <? 150 - (clock s - lastCall s)) = true)
    by (apply Z.ltb_lt; lia).
  rewrite Hpos. do 2 f_equal. f_equal. lia.
Qed.

Lemma enter_issues (s : limiter) :
  150 <= clock s - lastCall s -> polyFetch_enter s = issue s.
Proof.
  intro H. unfold polyFetch_enter. cbv zeta.
  assert (Hw : Z.max 0 (150 - (clock s - lastCall s)) = 0) by lia.
  rewrite Hw. reflexivity.
Qed.

Lemma enter_cases (s : limiter) :
  lastCall s <= clock s ->
  polyFetch_enter s = issue s \/
  exists due,
    clock s < due <= clock s + 150 /\ due = lastCall s + 150 /\
    polyFetch_enter s
    = mk_limiter (clock s) (lastCall s) (timers s ++ [due]) (fetches s).
Proof.
  intro H. destruct (Z.lt_ge_cases (clock s - lastCall s) 150) as [Hlt|Hge].
  - right. exists (lastCall s + 150).
    split; [lia|]. split; [reflexivity | now apply enter_waits].
  - left. now apply enter_issues.
Qed.

Lemma Forall_remove_nth {A : Type} (P : A -> Prop) (i : nat) (l : list A) :
  Forall P l -> Forall P (remove_nth i l).
Proof.
  revert i. induction l as [|x l IH]; intros i H; destruct i; simpl;
    try assumption; try constructor.
  - now inversion H.
  - now inversion H.
  - apply IH. now inversion H.
Qed.

Lemma length_remove_nth {A : Type} (i : nat) (l : list A) (x : A) :
  nth_error l i = Some x ->
  S (List.length (remove_nth i l)) = List.length l.
Proof.
  revert i. induction l as [|y l IH]; intros i H; destruct i; simpl in *;
    try discriminate; [reflexivity|].
  f_equal. now apply IH.
Qed.

Lemma timely_issue (s : limiter) (ts : list Z) :
  timely s -> Forall (fun due => due <= lastCall s + 150) ts ->
  timely (issue (mk_limiter (clock s) (lastCall s) ts (fetches s))).
Proof.
  intros (Hc & _ & Hf & Hs) Hts. unfold timely, issue.
  cbn [clock lastCall timers fetches].
  split; [lia|]. split; [|split].
  - eapply Forall_impl; [|exact Hts]. cbv beta. intros; lia.
  - constructor; [lia|]. eapply Forall_impl; [|exact Hf]. cbv beta. intros; lia.
  - constructor; [exact Hs|].
    eapply Forall_impl; [|exact Hf]. cbv beta. intros; lia.
Qed.

Lemma timely_step (e : event) (s s' : limiter) :
  timely s -> step e s = Some s' -> timely s'.
Proof.
  intros Ht Hstep. destruct e as [ms| |i]; unfold step in Hstep.
  - destruct (0 <=? ms) eqn:E; [|discriminate].
    apply PolygonFacts.some_eq in Hstep. subst s'. apply Z.leb_le in E.
    destruct Ht as (Hc & Hd & Hf & Hs). unfold timely.
    cbn [clock lastCall timers fetches]. repeat split; try assumption. lia.
  - apply PolygonFacts.some_eq in Hstep. subst s'.
    pose proof Ht as (Hc & Hd & Hf & Hs).
    destruct (enter_cases s Hc) as [-> | (due & Hdue & Heq & ->)].
    + destruct s as [c lc ts fs]. now apply (timely_issue (mk_limiter c lc ts fs)).
    + unfold timely. cbn [clock lastCall timers fetches].
      repeat split; try assumption.
      apply Forall_app. split; [assumption|]. constructor; [lia|constructor].
  - unfold polyFetch_resume in Hstep.
    destruct (nth_error (timers s) i) as [due|]; [|discriminate].
    destruct (due <=? clock s); [|discriminate].
    apply PolygonFacts.some_eq in Hstep. subst s'.
    apply timely_issue; [assumption|].
    apply Forall_remove_nth. now destruct Ht as (_ & Hd & _).
Qed.

Lemma timely_run (es : list event) (s s' : limiter) :
  timely s -> run es s = Some s' -> timely s'.
Proof.
  revert s. induction es as [|e es IH]; simpl; intros s Ht Hrun.
  - injection Hrun as <-. exact Ht.
  - destruct (step e s) as [s1|] eqn:Hstep; [|discriminate].
    apply (IH s1); [|exact Hrun]. now apply (timely_step e s).
Qed.

Lemma run_accounts (es : list event) (s s' : limiter) :
  run es s = Some s' ->
  Z.of_nat (List.length (fetches s')) + Z.of_nat (List.length (timers s'))
  = Z.of_nat (List.length (fetches s)) + Z.of_nat (List.length (timers s))
    + calls es.
Proof.
  revert s. induction es as [|e es IH]; intros s Hrun.
  - cbn in Hrun. injection Hrun as <-. unfold calls. cbn. lia.
  - cbn [run] in Hrun. destruct (step e s) as [s1|] eqn:Hstep; [|discriminate].
    specialize (IH s1 Hrun). rewrite IH. clear IH Hrun.
    destruct e as [ms| |i]; unfold step in Hstep; unfold calls; cbn [filter].
    + destruct (0 <=? ms); [|discriminate].
      apply PolygonFacts.some_eq in Hstep. subst s1.
      cbn [clock lastCall timers fetches]. lia.
    + apply PolygonFacts.some_eq in Hstep. subst s1.
      unfold polyFetch_enter. cbv zeta.
      destruct (0 <? Z.max 0 (150 - (clock s - lastCall s)));
        unfold issue; cbn [clock lastCall timers fetches List.length];
        rewrite ?length_app; cbn [List.length]; lia.
    + unfold polyFetch_resume in Hstep.
      destruct (nth_error (timers s) i) as [due|] eqn:En; [|discriminate].
      destruct (due <=? clock s); [|discriminate].
      apply PolygonFacts.some_eq in Hstep. subst s1.
      apply length_remove_nth in En.
      unfold issue; cbn [clock lastCall timers fetches List.length]. lia.
Qed.

End PolygonRuns.

(** X13: in every run from the load of the module, whatever the calls
    overlap, lastCall is not in the future, no waiting call is due later
    than 150 ms from now, the requests were started in the order of the
    log and none in the future; and a call that enters either starts its
    request at once or waits for a timer due within 150 ms. *)
Theorem polyFetch_delay_is_bounded
  (t0 : Z) (es : list Polygon.event) (s : Polygon.limiter) :
  0 <= t0 ->
  Polygon.run es (Polygon.boot t0) = Some s ->
  Polygon.lastCall s <= Polygon.clock s /\
  Forall (fun due => due <= Polygon.clock s + 150) (Polygon.timers s) /\
  Forall (fun f => f <= Polygon.clock s) (Polygon.fetches s) /\
  StronglySorted Z.ge (Polygon.fetches s) /\
  (Polygon.polyFetch_enter s = Polygon.issue s \/
   exists due,
     Polygon.clock s < due <= Polygon.clock s + 150 /\
     Polygon.polyFetch_enter s
     = Polygon.mk_limiter (Polygon.clock s) (Polygon.lastCall s)
                          (Polygon.timers s ++ [due]) (Polygon.fetches s)).
Proof.
  intros Ht0 Hrun.
  assert (Hboot : Polygon.timely (Polygon.boot t0)).
  { unfold Polygon.timely, Polygon.boot.
    cbn [Polygon.clock Polygon.lastCall Polygon.timers Polygon.fetches].
    repeat split; try constructor. lia. }
  destruct (PolygonRuns.timely_run es _ s Hboot Hrun) as (Hc & Hd & Hf & Hs).
  split; [exact Hc|]. split; [|split; [|split; [exact Hs|]]].
  - eapply Forall_impl; [|exact Hd]. cbv beta. intros; lia.
  - eapply Forall_impl; [|exact Hf]. cbv beta. intros; lia.
  - destruct (PolygonRuns.enter_cases s Hc) as [H | (due & Hdue & _ & H)];
      [left; exact H | right; exists due; auto].
Qed.

Lemma polyFetch_delay_is_bounded_witness :
  Forall (fun due => due <= 1000000 + 150) [1000150; 1000150].
Proof.
  destruct (polyFetch_delay_is_bounded 1000000
              [Polygon.Call; Polygon.Call; Polygon.Call]
              (Polygon.mk_limiter 1000000 1000000 [1000150; 1000150] [1000000]))
    as (_ & H & _).
  - lia.
  - vm_compute. reflexivity.
  - exact H.
Defined.

(** X14: no call is lost and none is answered twice: in every run from the
    load of the module, the requests started and the calls still waiting
    add up to the calls made. *)
Theorem polyFetch_accounts_for_every_call
  (t0 : Z) (es : list Polygon.event) (s : Polygon.limiter) :
  Polygon.run es (Polygon.boot t0) = Some s ->
  Z.of_nat (List.length (Polygon.fetches s)) +
  Z.of_nat (List.length (Polygon.timers s))
  = Polygon.calls es.
Proof.
  intro Hrun. rewrite (PolygonRuns.run_accounts es _ s Hrun).
  unfold Polygon.boot. cbn [Polygon.fetches Polygon.timers List.length]. lia.
Qed.

Lemma polyFetch_accounts_for_every_call_witness :
  Z.of_nat (List.length [1000000]) + Z.of_nat (List.length [1000150; 1000150])
  = 3.
Proof.
  apply (polyFetch_accounts_for_every_call 1000000
           [Polygon.Call; Polygon.Call; Polygon.Call]
           (Polygon.mk_limiter 1000000 1000000 [1000150; 1000150] [1000000])).
  vm_compute. reflexivity.
Defined.

Module PolygonBurst.
Import Polygon.

Lemma run_app (es1 es2 : list event) (s : limiter) :
  run (es1 ++ es2) s
  = match run es1 s with
    | Some s' => run es2 s'
    | None => None
    end.
Proof.
  revert s. induction es1 as [|e es1 IH]; intro s; cbn [app run];
    [reflexivity|].
  destruct (step e s); [apply IH | reflexivity].
Qed.

Lemma repeat_snoc {A : Type} (x : A) (n : nat) (l : list A) :
  repeat x n ++ x :: l = x :: repeat x n ++ l.
Proof.
  induction n as [|n IH]; cbn [repeat app]; [reflexivity|]. now rewrite IH.
Qed.

(** Calls that enter less than 150 ms after lastCall all get the same
    timer. *)
Lemma run_calls_wait (n : nat) (c lc : Z) (ts fs : list Z) :
  c - lc < 150 ->
  run (repeat Call n) (mk_limiter c lc ts fs)
  = Some (mk_limiter c lc (ts ++ repeat (lc + 150) n) fs).
Proof.
  intro H. revert ts. induction n as [|n IH]; intro ts; cbn [repeat run step].
  - now rewrite app_nil_r.
  - rewrite PolygonRuns.enter_waits by (cbn [clock lastCall]; exact H).
    cbn [clock lastCall timers fetches]. rewrite IH.
    rewrite <- app_assoc. reflexivity.
Qed.

(** Timers that are all due fire one after the other at the same time. *)
Lemma run_resumes (n : nat) (c lc due : Z) (ts fs : list Z) :
  due <= c ->
  exists lc',
    run (repeat (Resume 0) n) (mk_limiter c lc (repeat due n ++ ts) fs)
    = Some (mk_limiter c lc' ts (repeat c n ++ fs)).
Proof.
  intro H. revert lc fs. induction n as [|n IH]; intros lc fs.
  - exists lc. reflexivity.
  - cbn [repeat app run step]. unfold polyFetch_resume.
    cbn [timers nth_error clock].
    assert (Hdue : (due <=? c) = true) by now apply Z.leb_le.
    rewrite Hdue. unfold issue. cbn [clock lastCall timers fetches remove_nth].
    destruct (IH c (c :: fs)) as (lc' & Hrun).
    exists lc'. rewrite Hrun. now rewrite repeat_snoc.
Qed.

Lemma calls_burst (n : nat) : calls (burst n) = Z.of_nat n + 1.
Proof.
  unfold calls, burst. cbn [filter].
  rewrite filter_app.
  assert (H1 : forall k, filter (fun e => match e with Call => true | _ => false end)
                                (repeat Call k) = repeat Call k).
  { induction k as [|k IH]; cbn [repeat filter]; [reflexivity|]. now rewrite IH. }
  assert (H2 : forall k, filter (fun e => match e with Call => true | _ => false end)
                                ([Tick 150] ++ repeat (Resume 0) k) = []).
  { intro k. cbn [app filter].
    induction k as [|k IH]; cbn [repeat filter]; [reflexivity | exact IH]. }
  rewrite H1, H2, app_nil_r. cbn [List.length]. rewrite repeat_length. lia.
Qed.

End PolygonBurst.

(** X15: calls that enter polyFetch while a request is less than 150 ms old
    all read the same lastCall and are released together: after a first
    call at t0, n further calls made at once all start their requests at
    t0 + 150, so that the n + 1 requests of the burst start within 150 ms,
    for every n. *)
Theorem polyFetch_burst_starts_together (n : nat) (t0 : Z) :
  150 <= t0 ->
  exists s,
    Polygon.run (Polygon.burst n) (Polygon.boot t0) = Some s /\
    Polygon.clock s = t0 + 150 /\
    Polygon.timers s = [] /\
    Polygon.fetches s = repeat (t0 + 150) n ++ [t0] /\
    Polygon.calls (Polygon.burst n) = Z.of_nat n + 1.
Proof.
  intro Ht0. pose proof (PolygonBurst.calls_burst n) as Hcalls.
  unfold Polygon.burst at 1. unfold Polygon.boot.
  cbn [Polygon.run Polygon.step].
  rewrite PolygonRuns.enter_issues
    by (cbn [Polygon.clock Polygon.lastCall]; lia).
  unfold Polygon.issue.
  cbn [Polygon.clock Polygon.lastCall Polygon.timers Polygon.fetches].
  rewrite PolygonBurst.run_app.
  rewrite PolygonBurst.run_calls_wait by lia.
  cbn [app].
  cbn [Polygon.run Polygon.step Polygon.clock Polygon.lastCall
       Polygon.timers Polygon.fetches].
  assert (Htick : (0 <=? 150) = true) by reflexivity. rewrite Htick.
  destruct (PolygonBurst.run_resumes n (t0 + 150) t0 (t0 + 150) [] [t0])
    as (lc' & Hrun); [lia|].
  rewrite app_nil_r in Hrun. rewrite Hrun.
  eexists. split; [reflexivity|].
  cbn [Polygon.clock Polygon.timers Polygon.fetches].
  repeat split. exact Hcalls.
Qed.

Lemma polyFetch_burst_starts_together_witness :
  exists s,
    Polygon.run (Polygon.burst 5) (Polygon.boot 1000000) = Some s /\
    Polygon.fetches s
    = [1000150; 1000150; 1000150; 1000150; 1000150; 1000000].
Proof.
  destruct (polyFetch_burst_starts_together 5 1000000)
    as (s & Hrun & _ & _ & Hf & _).
  - lia.
  - exists s. split; [exact Hrun|]. rewrite Hf. reflexivity.
Defined.

(** * The news and EDGAR modules *)

Lemma round_div_range (n t lo hi : Z) :
  0 < t -> (2 * lo - 1) * t < 2 * n -> 2 * n < (2 * hi + 1) * t ->
  lo <= round_div n t <= hi.
Proof.
  intros Ht Hlo Hhi. unfold round_div.
  destruct (Z.lt_trichotomy n 0) as [Hn|[Hn|Hn]].
  - rewrite (Z.sgn_neg n Hn), (Z.abs_neq n) by lia.
    assert (H1 : (2 * - n + t) / (2 * t) < - lo + 1)
      by (apply Z.div_lt_upper_bound; nia).
    assert (H2 : - hi <= (2 * - n + t) / (2 * t))
      by (apply Z.div_le_lower_bound; nia).
    lia.
  - subst n. cbn [Z.sgn]. nia.
  - rewrite (Z.sgn_pos n Hn), (Z.abs_eq n) by lia.
    assert (H1 : (2 * n + t) / (2 * t) < hi + 1)
      by (apply Z.div_lt_upper_bound; nia).
    assert (H2 : lo <= (2 * n + t) / (2 * t))
      by (apply Z.div_le_lower_bound; nia).
    lia.
Qed.

Lemma count_words_bounds (lower : string) (words : list string) :
  0 <= Reuters.count_words lower words <= Z.of_nat (List.length words).
Proof.
  unfold Reuters.count_words.
  assert (H : forall acc,
    acc <= fold_left
             (fun n w => if Reuters.contains lower w then n + 1 else n)
             words acc
        <= acc + Z.of_nat (List.length words)).
  { induction words as [|w words IH]; intro acc; cbn [fold_left List.length].
    - lia.
    - specialize (IH (if Reuters.contains lower w then acc + 1 else acc)).
      destruct (Reuters.contains lower w); lia. }
  specialize (H 0). lia.
Qed.

Lemma count_words_none (lower : string) (words : list string) :
  (forall w, In w words -> Reuters.contains lower w = false) ->
  Reuters.count_words lower words = 0.
Proof.
  unfold Reuters.count_words. generalize 0.
  induction words as [|w words IH]; intros acc H; cbn [fold_left];
    [reflexivity|].
  rewrite (H w (or_introl eq_refl)). apply IH. intros v Hv. apply H. now right.
Qed.

(** X16: scoreSentiment gives a score between -1 and 1 (in hundredths) and
    one of the three labels; BULLISH comes with a score of at least 0.30
    and more positive than negative keywords, BEARISH with a score of at
    most -0.30 and more negative ones, NEUTRAL with a score between -0.30
    and 0.30; a text with none of the thirty keywords is NEUTRAL with
    score 0. *)
Theorem scoreSentiment_score_and_label
  (toLowerCase : string -> string) (text : string) :
  let lower := toLowerCase text in
  let pos := Reuters.count_words lower Reuters.POSITIVE_WORDS in
  let neg := Reuters.count_words lower Reuters.NEGATIVE_WORDS in
  let r := Reuters.scoreSentiment toLowerCase text in
  -100 <= Reuters.score r <= 100 /\
  (Reuters.label r = "BULLISH" \/ Reuters.label r = "BEARISH" \/
   Reuters.label r = "NEUTRAL") /\
  (Reuters.label r = "BULLISH" -> 30 <= Reuters.score r /\ neg < pos) /\
  (Reuters.label r = "BEARISH" -> Reuters.score r <= -30 /\ pos < neg) /\
  (Reuters.label r = "NEUTRAL" -> -30 <= Reuters.score r <= 30) /\
  ((forall w, In w (Reuters.POSITIVE_WORDS ++ Reuters.NEGATIVE_WORDS) ->
              Reuters.contains lower w = false) ->
   r = Reuters.mk_sentiment 0 "NEUTRAL").
Proof.
  intros lower pos neg r. subst r. unfold Reuters.scoreSentiment.
  fold lower. fold pos. fold neg. cbv zeta.
  pose proof (count_words_bounds lower Reuters.POSITIVE_WORDS) as Hp.
  pose proof (count_words_bounds lower Reuters.NEGATIVE_WORDS) as Hn.
  fold pos in Hp. fold neg in Hn.
  assert (Hnone :
    (forall w, In w (Reuters.POSITIVE_WORDS ++ Reuters.NEGATIVE_WORDS) ->
               Reuters.contains lower w = false) -> pos + neg = 0).
  { intro H. unfold pos, neg.
    rewrite !count_words_none; [reflexivity| |];
      intros w Hw; apply H; apply in_or_app; auto. }
  destruct (pos + neg =? 0) eqn:Ez.
  - cbn [Reuters.score Reuters.label].
    repeat split; try lia; try discriminate. right; right; reflexivity.
  - apply Z.eqb_neq in Ez.
    assert (Ht : 0 < pos + neg) by lia.
    destruct (3 * (pos + neg) <? 10 * (pos - neg)) eqn:Eb.
    + apply Z.ltb_lt in Eb. cbn [Reuters.score Reuters.label].
      assert (Hr : 30 <= round_div (100 * (pos - neg)) (pos + neg) <= 100)
        by (apply round_div_range; lia).
      repeat split; try lia; try discriminate; auto.
      intro H. apply Hnone in H. lia.
    + apply Z.ltb_ge in Eb.
      destruct (10 * (pos - neg) <? - (3 * (pos + neg))) eqn:Es.
      * apply Z.ltb_lt in Es. cbn [Reuters.score Reuters.label].
        assert (Hr : -100 <= round_div (100 * (pos - neg)) (pos + neg) <= -30)
          by (apply round_div_range; lia).
        repeat split; try lia; try discriminate; auto.
        intro H. apply Hnone in H. lia.
      * apply Z.ltb_ge in Es. cbn [Reuters.score Reuters.label].
        assert (Hr : -30 <= round_div (100 * (pos - neg)) (pos + neg) <= 30)
          by (apply round_div_range; lia).
        repeat split; try lia; try discriminate; auto.
        intro H. apply Hnone in H. lia.
Qed.

Lemma form4_loop_spec (recent : Edgar.recent_filings) (name : option string)
  (data_tickers : list string) (forms : list string) (i : nat)
  (acc : list Edgar.form4) :
  (List.length acc <= 10)%nat ->
  Edgar.form4_loop recent name data_tickers forms i acc
  = acc ++ map (Edgar.form4_at recent name data_tickers)
               (firstn (10 - List.length acc) (Edgar.form4_indices forms i)).
Proof.
  revert i acc. induction forms as [|f forms IH]; intros i acc Hacc;
    cbn [Edgar.form4_loop Edgar.form4_indices].
  - rewrite firstn_nil. cbn [map]. now rewrite app_nil_r.
  - destruct (List.length acc <? 10)%nat eqn:E.
    + apply Nat.ltb_lt in E. destruct (String.eqb f "4").
      * rewrite IH by (rewrite length_app; cbn [List.length]; lia).
        rewrite length_app. cbn [List.length].
        replace (10 - List.length acc)%nat
          with (S (10 - (List.length acc + 1)))%nat by lia.
        cbn [firstn map]. rewrite <- app_assoc. reflexivity.
      * now apply IH.
    + apply Nat.ltb_ge in E.
      replace (10 - List.length acc)%nat with 0%nat by lia.
      cbn [firstn map]. now rewrite app_nil_r.
Qed.

(** X17: from a response that carries filings.recent, fetchSubmissions
    returns the first ten entries whose form is "4", in the order of the
    response and fewer when there are fewer: never more than ten, and
    nothing of another form. *)
Theorem fetchSubmissions_first_ten_form4
  (recent : Edgar.recent_filings) (name : option string)
  (data_tickers : list string) :
  Edgar.form4_filings recent name data_tickers
  = map (Edgar.form4_at recent name data_tickers)
        (firstn 10 (Edgar.form4_indices (Edgar.form recent) 0)) /\
  (List.length (Edgar.form4_filings recent name data_tickers) <= 10)%nat /\
  (forall i, In i (Edgar.form4_indices (Edgar.form recent) 0) ->
             nth_error (Edgar.form recent) i = Some "4").
Proof.
  assert (Hspec : Edgar.form4_filings recent name data_tickers
                  = map (Edgar.form4_at recent name data_tickers)
                        (firstn 10 (Edgar.form4_indices (Edgar.form recent) 0))).
  { unfold Edgar.form4_filings.
    rewrite form4_loop_spec by (cbn; lia). reflexivity. }
  split; [exact Hspec|]. split.
  - rewrite Hspec, length_map, length_firstn. lia.
  - assert (H : forall forms base i,
        In i (Edgar.form4_indices forms base) ->
        (base <= i)%nat /\ nth_error forms (i - base) = Some "4").
    { induction forms as [|f forms IH]; intros base i Hin;
        cbn [Edgar.form4_indices] in Hin; [contradiction|].
      destruct (String.eqb_spec f "4") as [->|Hf].
      - destruct Hin as [<-|Hin].
        + split; [lia|]. now rewrite Nat.sub_diag.
        + apply IH in Hin. destruct Hin as [Hle Hn]. split; [lia|].
          replace (i - base)%nat with (S (i - S base))%nat by lia. exact Hn.
      - apply IH in Hin. destruct Hin as [Hle Hn]. split; [lia|].
        replace (i - base)%nat with (S (i - S base))%nat by lia. exact Hn. }
    intros i Hin. apply H in Hin. destruct Hin as [_ Hn].
    now rewrite Nat.sub_0_r in Hn.
Qed.
